(** * bw agent bootstrap: keyring derivation, cluster join, consensus start-up

    A shallow embedding of [agent/config.go] (package [agent]) and of the
    [cmdopts] peering commands ([Peering.Join], [Peering.Raft], [p2ppeering]),
    with the properties of the bootstrap layer stated and proved over it. *)

From Stdlib Require Import ZArith Lia.
From Stdlib.Strings Require Import Byte Ascii String.
From stdpp Require Import base option list strings gmap pretty.

Set Default Proof Using "Type".

(* ===================================================================== *)
(** * Go values *)
(* ===================================================================== *)

(** A Go [[]byte]. *)
Abbreviation bytes := (list byte).

(** [[]byte(s)] of a Go string: the string's bytes, in order. *)
Definition bytes_of_string (s : string) : bytes := list_byte_of_string s.

(** Go [error] values: what the libraries report, and the wrapper of
    [errors.WithStack] around another error. The wrapper records the stack
    at the point of the call; of the stack the model keeps the line of the
    source where [errors.WithStack] is called. *)
Inductive error : Type :=
| errorString (text : string)
| PathError (Op : string) (Path : string) (Err : string)
| withStack (line : Z) (cause : error).

(** [errors.WithStack(err)], called at [line]: nil for nil, otherwise [err]
    annotated with the stack. *)
Definition WithStack (line : Z) (err : option error) : option error :=
  match err with
  | Some e => Some (withStack line e)
  | None => None
  end.

(* ===================================================================== *)
(** * crypto/sha256 *)
(* ===================================================================== *)

Module sha256.
Local Open Scope Z_scope.

(** A [uint32]: a [Z] kept below 2^32; arithmetic wraps around. *)
Definition u32 (x : Z) : Z := x mod 2 ^ 32.

Definition add32 (x y : Z) : Z := u32 (x + y).

(** [bits.RotateLeft32(x, -k)]: rotation to the right by [k] bits. *)
Definition rotr (k x : Z) : Z :=
  Z.lor (Z.shiftr x k) (u32 (Z.shiftl x (32 - k))).

(** [^x] on a [uint32]. *)
Definition not32 (x : Z) : Z := Z.lxor x (2 ^ 32 - 1).

(** The largest [r] with [r ^ 3 <= n], by bisection on the bits of [r]. *)
Fixpoint icbrt_bits (bit : nat) (n r : Z) : Z :=
  match bit with
  | O => r
  | S b =>
      let r' := r + 2 ^ Z.of_nat b in
      icbrt_bits b n (if r' * r' * r' <=? n then r' else r)
  end.

Definition icbrt (n : Z) : Z := icbrt_bits 40 n 0.

(** The first sixty-four primes. *)
Definition primes : list Z :=
  [   2;   3;   5;   7;  11;  13;  17;  19;  23;  29;  31;  37;  41;  43;
     47;  53;  59;  61;  67;  71;  73;  79;  83;  89;  97; 101; 103; 107;
    109; 113; 127; 131; 137; 139; 149; 151; 157; 163; 167; 173; 179; 181;
    191; 193; 197; 199; 211; 223; 227; 229; 233; 239; 241; 251; 257; 263;
    269; 271; 277; 281; 283; 293; 307; 311 ].

(** The table [_K] of round constants: the first 32 bits of the fractional
    parts of the cube roots of the first sixty-four primes. *)
Definition _K : list Z :=
  Eval vm_compute in map (fun p => u32 (icbrt (p * 2 ^ 96))) primes.

(** The initial hash value [init0 .. init7]: the first 32 bits of the
    fractional parts of the square roots of the first eight primes. *)
Definition init : list Z :=
  Eval vm_compute in map (fun p => u32 (Z.sqrt (p * 2 ^ 64))) (take 8 primes).

(** The running hash [digest.h], eight [uint32]. *)
Record digest : Type := Digest {
  h0 : Z; h1 : Z; h2 : Z; h3 : Z; h4 : Z; h5 : Z; h6 : Z; h7 : Z
}.

Definition digest0 : digest :=
  Digest (nth 0 init 0) (nth 1 init 0) (nth 2 init 0) (nth 3 init 0)
         (nth 4 init 0) (nth 5 init 0) (nth 6 init 0) (nth 7 init 0).

Definition byteZ (b : byte) : Z := Z.of_N (Byte.to_N b).

Definition Zbyte (x : Z) : byte :=
  match Byte.of_N (Z.to_N (x mod 256)) with
  | Some b => b
  | None => x00
  end.

(** Big-endian [uint32] of four bytes: [p[j]<<24 | p[j+1]<<16 | p[j+2]<<8 | p[j+3]]. *)
Definition be32 (p : bytes) (j : nat) : Z :=
  Z.lor (Z.lor (Z.lor (Z.shiftl (byteZ (nth j p x00)) 24)
                      (Z.shiftl (byteZ (nth (j + 1) p x00)) 16))
               (Z.shiftl (byteZ (nth (j + 2) p x00)) 8))
        (byteZ (nth (j + 3) p x00)).

(** The message schedule [w[0..63]] of one 64-byte chunk. *)
Fixpoint schedule_ext (n : nat) (w : list Z) : list Z :=
  match n with
  | O => w
  | S n' =>
      let i := length w in
      let v1 := nth (i - 2) w 0 in
      let t1 := Z.lxor (Z.lxor (rotr 17 v1) (rotr 19 v1)) (Z.shiftr v1 10) in
      let v2 := nth (i - 15) w 0 in
      let t2 := Z.lxor (Z.lxor (rotr 7 v2) (rotr 18 v2)) (Z.shiftr v2 3) in
      schedule_ext n'
        (w ++ [add32 (add32 (add32 t1 (nth (i - 7) w 0)) t2) (nth (i - 16) w 0)])
  end.

Definition schedule (p : bytes) : list Z :=
  schedule_ext 48 (map (fun i => be32 p (i * 4)) (seq 0 16)).

(** One of the sixty-four rounds on the working variables [a .. h]. *)
Definition round (k w : Z) (s : digest) : digest :=
  let '(Digest a b c d e f g h) := s in
  let t1 :=
    add32 (add32 (add32 (add32 h
      (Z.lxor (Z.lxor (rotr 6 e) (rotr 11 e)) (rotr 25 e)))
      (Z.lxor (Z.land e f) (Z.land (not32 e) g))) k) w in
  let t2 :=
    add32 (Z.lxor (Z.lxor (rotr 2 a) (rotr 13 a)) (rotr 22 a))
          (Z.lxor (Z.lxor (Z.land a b) (Z.land a c)) (Z.land b c)) in
  Digest (add32 t1 t2) a b c (add32 d t1) e f g.

Fixpoint rounds (ks ws : list Z) (s : digest) : digest :=
  match ks, ws with
  | k :: ks', w :: ws' => rounds ks' ws' (round k w s)
  | _, _ => s
  end.

(** [blockGeneric] on one chunk. *)
Definition block1 (dig : digest) (p : bytes) : digest :=
  let s := rounds _K (schedule p) dig in
  Digest (add32 (h0 dig) (h0 s)) (add32 (h1 dig) (h1 s))
         (add32 (h2 dig) (h2 s)) (add32 (h3 dig) (h3 s))
         (add32 (h4 dig) (h4 s)) (add32 (h5 dig) (h5 s))
         (add32 (h6 dig) (h6 s)) (add32 (h7 dig) (h7 s)).

(** [blockGeneric]: [for len(p) >= chunk { ...; p = p[chunk:] }]. *)
Fixpoint block (chunks : nat) (dig : digest) (p : bytes) : digest :=
  match chunks with
  | O => dig
  | S n => block n (block1 dig p) (drop 64 p)
  end.

(** Big-endian bytes of the low [8 * n] bits of [x]. *)
Fixpoint be_bytes (n : nat) (x : Z) : bytes :=
  match n with
  | O => []
  | S n' => Zbyte (Z.shiftr x (8 * Z.of_nat n')) :: be_bytes n' x
  end.

(** The padding of [checkSum]: a [0x80] byte, zeros up to 56 modulo 64, and
    the length of the message in bits as a big-endian [uint64]. *)
Definition pad (len : nat) : bytes :=
  let r := (len mod 64)%nat in
  let zeros := (if r <? 56 then 55 - r else 119 - r)%nat in
  x80 :: replicate zeros x00 ++ be_bytes 8 ((8 * Z.of_nat len) mod 2 ^ 64).

Definition be32_bytes (x : Z) : bytes := be_bytes 4 x.

(** [Sum256(data)]: the SHA-256 checksum, thirty-two bytes. *)
Definition Sum256 (data : bytes) : bytes :=
  let p := data ++ pad (length data) in
  let '(Digest a b c d e f g h) := block (length p / 64) digest0 p in
  be32_bytes a ++ be32_bytes b ++ be32_bytes c ++ be32_bytes d ++
  be32_bytes e ++ be32_bytes f ++ be32_bytes g ++ be32_bytes h.

(** [Size]: the size of a SHA-256 checksum in bytes. *)
Definition Size : nat := 32.

End sha256.

(** Hexadecimal rendering of a byte string, for reading digests. *)
Definition hex_digit (n : N) : ascii :=
  nth (N.to_nat n)
      (list_ascii_of_string "0123456789abcdef") "0"%char.

Definition hex (bs : bytes) : string :=
  string_of_list_ascii
    (flat_map (fun b => [hex_digit (Byte.to_N b / 16); hex_digit (Byte.to_N b mod 16)]) bs).

(* ===================================================================== *)
(** * Package agent: the configuration of an agent process *)
(* ===================================================================== *)

Module agent.

(** A Go slice held in a struct field: [None] is the nil slice, [Some l] a
    slice with the elements [l] ([Some []] is the literal [[]T{}]). *)
Definition slice (A : Type) : Type := option (list A).

(** The elements a [range] over the slice visits, in order. *)
Definition elems {A} (s : slice A) : list A := default [] s.

(** [net.TCPAddr]. *)
Record TCPAddr : Type := mkTCPAddr {
  IP : bytes;
  Port : Z;
  Zone : string
}.

(** [type bootstrap struct]. *)
Record bootstrap : Type := mkBootstrap {
  Attempts : Z;
  ReadOnly : bool;
  ArchiveDirectory : string
}.

(** [type dnsBind struct]. *)
Record dnsBind : Type := mkDnsBind {
  TTL : Z;
  Frequency : Z
}.

(** The anonymous struct of [Config.Credentials]. *)
Record credentials : Type := mkCredentials {
  Mode : string;
  Directory : string
}.

(** The anonymous struct of [Config.AWSBootstrap]. *)
Record awsBootstrap : Type := mkAwsBootstrap {
  AutoscalingGroups : slice string
}.

(** [type Config struct]: configuration for agent processes. A pointer
    field is an [option] ([None] is nil); [int] and [time.Duration] are
    integers. *)
Record Config : Type := mkConfig {
  Name : string;
  Root : string;
  KeepN : Z;
  MinimumNodes : Z;
  Bootstrap : bootstrap;
  SnapshotFrequency : Z;
  P2PBind : option TCPAddr;
  P2PAdvertised : option TCPAddr;
  AlternateBinds : slice (option TCPAddr);
  ClusterTokens : slice string;
  ServerName : string;
  CA : string;
  CredentialsMode : string;
  CredentialsDir : string;
  Credentials : credentials;
  DNSBind : dnsBind;
  DNSBootstrap : slice string;
  AWSBootstrap : awsBootstrap
}.

(** The assignment [c.ClusterTokens = v] on a struct value. *)
Definition set_ClusterTokens (c : Config) (v : slice string) : Config :=
  {| Name := Name c; Root := Root c; KeepN := KeepN c;
     MinimumNodes := MinimumNodes c; Bootstrap := Bootstrap c;
     SnapshotFrequency := SnapshotFrequency c; P2PBind := P2PBind c;
     P2PAdvertised := P2PAdvertised c; AlternateBinds := AlternateBinds c;
     ClusterTokens := v;
     ServerName := ServerName c; CA := CA c;
     CredentialsMode := CredentialsMode c; CredentialsDir := CredentialsDir c;
     Credentials := Credentials c; DNSBind := DNSBind c;
     DNSBootstrap := DNSBootstrap c; AWSBootstrap := AWSBootstrap c |}.

(** The variables of the body of [Sanitize]: the receiver [t], which the
    method receives by value (a copy of the caller's struct), and the local
    [dup]. *)
Record Sanitize_vars : Type := mkSanitizeVars {
  var_t : Config;
  var_dup : Config
}.

(** The body of [func (t Config) Sanitize() Config], statement by statement:
    [dup := t], then [dup.ClusterTokens = []string{}]. The second statement
    stores a new slice in the field of [dup]; it writes no element of the
    slice the receiver holds. *)
Definition Sanitize_body (t : Config) : Sanitize_vars :=
  let vars := {| var_t := t; var_dup := t |} in
  {| var_t := var_t vars;
     var_dup := set_ClusterTokens (var_dup vars) (Some []) |}.

(** [Config.Sanitize]: [return dup]. *)
Definition Sanitize (t : Config) : Config := var_dup (Sanitize_body t).

(** The keyring constructor of the gossip library,
    [memberlist.NewKeyring(keys [][]byte, primaryKey []byte)], consumed as it
    is: the type of the keyring it returns, and the function, which returns
    the keyring and an error. *)
Class Gossip : Type := {
  KeyringT : Type;
  NewKeyring : list bytes -> bytes -> KeyringT * option error
}.

(** The loop of [Keyring]:
    [for _, token := range t.ClusterTokens { hashed := sha256.Sum256([]byte(token)); tokens = append(tokens, hashed[:]) }]. *)
Definition hash_tokens (cluster_tokens : list string) : list bytes :=
  fold_left
    (fun tokens token => tokens ++ [sha256.Sum256 (bytes_of_string token)])
    cluster_tokens [].

(** [Config.Keyring]: the switch on [len(tokens)]. *)
Definition Keyring `{Gossip} (t : Config) : KeyringT * option error :=
  let tokens := hash_tokens (elems (ClusterTokens t)) in
  match length tokens with
  | 0 =>
      let hashed := sha256.Sum256 (bytes_of_string (ServerName t)) in
      NewKeyring [] hashed
  | 1 => NewKeyring [] (nth 0 tokens [])
  | _ => NewKeyring (drop 1 tokens) (nth 0 tokens [])
  end.

(** The gossip layer as a recorder: the keyring is the pair of arguments the
    constructor was handed, [keys] and [primaryKey]. *)
Definition recording : Gossip :=
  {| KeyringT := list bytes * bytes;
     NewKeyring := fun keys primaryKey => ((keys, primaryKey), None) |}.

(** The keys [Keyring] passes to the gossip layer: the legacy keys and the
    primary key. *)
Definition Keyring_passes (t : Config) : list bytes * bytes :=
  (@Keyring recording t).1.

(** A key that [Keyring] derives: the digest of a cluster token or of the
    server name. *)
Definition derived_key (t : Config) (key : bytes) : Prop :=
  exists s : string,
    (s ∈ elems (ClusterTokens t) \/ s = ServerName t) /\ key = sha256.Sum256 (bytes_of_string s).

End agent.

(* ===================================================================== *)
(** * Programs over external calls *)
(* ===================================================================== *)

(** The code of [cmdopts] works through calls into the operating system and
    into other packages. A program is the tree of the calls it makes: each
    call is answered by its environment, and the program goes on from the
    answer. [C X] is the type of the calls answered by an [X]. *)
Section Prog.
Context {C : Type -> Type}.

Inductive prog (A : Type) : Type :=
| Ret (a : A)
| Panics
| Call {X : Type} (c : C X) (k : X -> prog A).

Arguments Ret {A} a.
Arguments Panics {A}.
Arguments Call {A X} c k.

Fixpoint bind {A B : Type} (p : prog A) (f : A -> prog B) : prog B :=
  match p with
  | Ret a => f a
  | Panics => Panics
  | Call c k => Call c (fun x => bind (k x) f)
  end.

(** A single call, returning its answer. *)
Definition invoke {X : Type} (c : C X) : prog X := Call c Ret.

(** A call together with the answer it got. *)
Inductive event : Type :=
| Event {X : Type} (c : C X) (answer : X).

(** How a run ends: the function returned, or the goroutine panicked. *)
Inductive result (A : Type) : Type :=
| Returned (a : A)
| Panicked.

Arguments Returned {A} a.
Arguments Panicked {A}.

(** An environment over worlds [W]: it answers every call, and the world
    moves on. *)
Definition handler (W : Type) : Type := forall X : Type, C X -> W -> X * W.

(** Running a program from a world: how it ends, the world it leaves, and
    the calls it made with their answers, in the order made. *)
Fixpoint run {W A : Type} (h : handler W) (p : prog A) (w : W)
  : result A * W * list event :=
  match p with
  | Ret a => (Returned a, w, [])
  | Panics => (Panicked, w, [])
  | Call c k =>
      let '(x, w1) := h _ c w in
      let '(r, w2, tr) := run h (k x) w1 in
      (r, w2, Event c x :: tr)
  end.

Definition outcome_of {W A : Type} (h : handler W) (p : prog A) (w : W) : result A :=
  (run h p w).1.1.

Definition world_after {W A : Type} (h : handler W) (p : prog A) (w : W) : W :=
  (run h p w).1.2.

Definition trace {W A : Type} (h : handler W) (p : prog A) (w : W) : list event :=
  (run h p w).2.

End Prog.

Arguments prog C A : clear implicits.
Arguments event C : clear implicits.
Arguments handler C W : clear implicits.
Arguments Ret {C A} a.
Arguments Panics {C A}.
Arguments Call {C A X} c k.
Arguments Returned {A} a.
Arguments Panicked {A}.

Declare Scope prog_scope.
Delimit Scope prog_scope with prog.
Notation "x <- p ;; q" := (bind p (fun x => q))
  (at level 100, p at next level, right associativity) : prog_scope.

(** A nil pointer dereference panics. *)
Definition deref {C : Type -> Type} {A : Type} (p : option A) : prog C A :=
  match p with
  | Some a => Ret a
  | None => Panics
  end.

(* ===================================================================== *)
(** * Package cmdopts: joining the cluster and starting consensus *)
(* ===================================================================== *)

Module cmdopts.
Import agent.
Local Open Scope prog_scope.

(** Modelled from the spec: [errorsx.Compact] (package [internal/errorsx]) is
    not under src/. It folds the errors of the steps it is handed into the
    one error that is surfaced: nil when no step failed, otherwise the error
    of the first step that failed, which is how the surfaced error tells the
    failed step. *)
Fixpoint Compact (errs : list (option error)) : option error :=
  match errs with
  | [] => None
  | Some err :: _ => Some err
  | None :: rest => Compact rest
  end.

(** The values of other packages that the code only passes along: their
    types, and the zero values Go gives a variable of the type. *)
Class Handles : Type := {
  Context_ : Type;
  Joiner : Type;
  PeeringFile : Type;
  Signer : Type;
  TLSConfig : Type;
  Dialer : Type;
  Node : Type;
  ClientConn : Type;
  Storage : Type;
  SnapshotStore : Type;
  Protocol : Type;
  OtherOption : Type;
  nilStorage : Storage;
  nilSnapshotStore : SnapshotStore;
  zeroProtocol : Protocol
}.

(** The pure functions of other packages that the code calls, and a
    constant of package [bw]: [filepath.Join], [net.JoinHostPort],
    [strconv.Itoa], [agent.URIDiscovery], [bw.EnvAgentClusterP2PDiscoveryPort]. *)
Class Lib : Type := {
  filepath_Join : list string -> string;
  JoinHostPort : string -> string -> string;
  Itoa : Z -> string;
  URIDiscovery : string -> string;
  EnvAgentClusterP2PDiscoveryPort : string
}.

(** [0700], the permission bits of the storage directory. *)
Definition perm_0700 : Z := 7 * 8 ^ 2.

(** A [clustering.Source]: the nil interface value, or one of the peering
    strategies of package [peering]. [StaticTCP addrs] is
    [peering.NewStaticTCP(addrs...)], [DNS port hosts] is
    [peering.NewDNS(port, hosts...)], [Snapshot f] is the [peering.File] of
    the persisted peers. *)
Inductive Source `{Handles} : Type :=
| NilSource
| StaticTCP (addrs : list (option TCPAddr))
| P2P (Address : string) (Dialer_ : Dialer)
| DNS (port : Z) (hosts : list string)
| AWSAutoscaling (Port_ : Z) (SupplimentalGroups : slice string)
| GCloudTargetPool (Port_ : Z) (Maximum : Z)
| Snapshot (file : PeeringFile).

Definition NewStaticTCP `{Handles} (addrs : list (option TCPAddr)) : Source :=
  StaticTCP addrs.

Definition NewDNS `{Handles} (port : Z) (hosts : list string) : Source :=
  DNS port hosts.

(** An argument of [log.Println]. *)
Inductive logarg : Type :=
| LogString (s : string)
| LogError (e : error).

(** Calls on the file system and the constructors of the consensus stores:
    [os.RemoveAll], [os.MkdirAll], [commandutils.RaftStoreFilepath] and
    [raft.NewFileSnapshotStore] (its log output is always [os.Stderr]). A
    constructor answers with the value and the error it returns. *)
Inductive fsCall `{Handles} : Type -> Type :=
| RemoveAll (path : string) : fsCall (option error)
| MkdirAll (path : string) (perm : Z) : fsCall (option error)
| RaftStoreFilepath (p : string) : fsCall (Storage * option error)
| NewFileSnapshotStore (base : string) (retain : Z)
    : fsCall (SnapshotStore * option error).

(** What the passive-reset callback returns: [(s, ss, err)]. *)
Definition ResetResult `{Handles} : Type :=
  (Storage * SnapshotStore * option error)%type.

(** A [raftutil.ProtocolOption]: the three that [Raft] builds, or another
    one built by a caller. *)
Inductive ProtocolOption `{Handles} : Type :=
| ProtocolOptionQuorumMinimum (n : Z)
| ProtocolOptionEnableSingleNode (b : bool)
| ProtocolOptionPassiveReset (reset : prog fsCall ResetResult)
| ProtocolOptionOther (o : OtherOption).

(** Every call of [Join], [p2ppeering] and [Raft] out of the package.
    [DefaultDialer address tlsconfig ss] stands for
    [dialers.DefaultDialer(address, tlsx.NewDialer(tlsconfig), grpc.WithPerRPCCredentials(ss))],
    [TLSGenServer c] for [certificatecache.TLSGenServer(c, tlsx.OptionNoClientCert)]. *)
Inductive call `{Handles} : Type -> Type :=
| Println (args : list logarg) : call unit
| envx_String (fallback key : string) : call string
| NewAgentSigner (root : string) : call (Signer * option error)
| TLSGenServer (c : Config) : call (TLSConfig * option error)
| DefaultDialer (address : string) (tlsconfig : TLSConfig) (ss : Signer)
    : call (Dialer * option error)
| ClusterJoin (ctx : Context_) (conf : Config) (c : Joiner)
    (defaultPeers : list Source) : call (option error)
| FS {X : Type} (c : fsCall X) : call X
| NewProtocol (ctx : Context_) (node : Node) (eq : ClientConn)
    (options : list ProtocolOption) : call (Protocol * option error).

(** [type Peering struct]. *)
Record Peering : Type := mkPeering {
  Bootstrap : slice (option TCPAddr);
  DNSEnabled : bool;
  AWSEnabled : bool;
  GCloudEnabled : bool
}.

Section Code.
Context `{Handles} `{Lib}.

(** [func p2ppeering(c agent.Config) (s clustering.Source, err error)]. The
    address is computed first, and reads [c.P2PBind.Port] through the
    pointer. *)
Definition p2ppeering (c : Config) : prog call (Source * option error) :=
  bind_addr <- deref (P2PBind c) ;;
  port <- invoke (envx_String (Itoa (Port bind_addr)) EnvAgentClusterP2PDiscoveryPort) ;;
  let address := JoinHostPort (ServerName c) port in
  signer <- invoke (NewAgentSigner (Root c)) ;;
  match signer.2 with
  | Some err => Ret (NilSource, Some err)
  | None =>
      tls <- invoke (TLSGenServer c) ;;
      match tls.2 with
      | Some err => Ret (NilSource, Some err)
      | None =>
          d <- invoke (DefaultDialer address tls.1 signer.1) ;;
          match d.2 with
          | Some err => Ret (NilSource, Some err)
          | None => Ret (P2P (URIDiscovery address) d.1, None)
          end
      end
  end.

(** [func (t *Peering) Join(ctx, config, c, snap) (err error)]. *)
Definition Join (t : Peering) (ctx : Context_) (config : Config) (c : Joiner)
    (snap : PeeringFile) : prog call (option error) :=
  let clipeers := NewStaticTCP (elems (Bootstrap t)) in
  let awspeers := NewStaticTCP [] in
  let gcloudpeers := NewStaticTCP [] in
  let dnspeers := NewStaticTCP [] in
  r <- p2ppeering config ;;
  p2ppeers <-
    match r.2 with
    | Some err =>
        _ <- invoke (Println [LogString "WARNING: P2P discovery disabled"; LogError err]) ;;
        Ret (NewStaticTCP [])
    | None => Ret r.1
    end ;;
  dnspeers <-
    (if DNSEnabled t then
       _ <- invoke (Println [LogString "dns peering enabled"]) ;;
       bind_addr <- deref (P2PBind config) ;;
       Ret (NewDNS (Port bind_addr)
                   (elems (DNSBootstrap config) ++ [ServerName config]))
     else Ret dnspeers) ;;
  awspeers <-
    (if AWSEnabled t then
       _ <- invoke (Println [LogString "aws autoscale groups peering enabled"]) ;;
       bind_addr <- deref (P2PBind config) ;;
       Ret (AWSAutoscaling (Port bind_addr)
                           (AutoscalingGroups (AWSBootstrap config)))
     else Ret awspeers) ;;
  gcloudpeers <-
    (if GCloudEnabled t then
       _ <- invoke (Println [LogString "gcloud target pool peering enabled"]) ;;
       bind_addr <- deref (P2PBind config) ;;
       Ret (GCloudTargetPool (Port bind_addr) (MinimumNodes config))
     else Ret gcloudpeers) ;;
  invoke (ClusterJoin ctx config c
          [clipeers; p2ppeers; awspeers; gcloudpeers; Snapshot snap; dnspeers]).

(** The callback that [Raft] hands to [raftutil.ProtocolOptionPassiveReset],
    a closure over [dir]. Go evaluates both arguments of [errorsx.Compact]
    before the call: [os.MkdirAll] runs whatever [os.RemoveAll] returned.
    The three returns with an error are at lines 451, 455 and 459 of the
    source. *)
Definition passive_reset (dir : string) : prog fsCall ResetResult :=
  let s := nilStorage in
  let ss := nilSnapshotStore in
  rm <- invoke (RemoveAll dir) ;;
  mk <- invoke (MkdirAll dir perm_0700) ;;
  match Compact [rm; mk] with
  | Some err => Ret (s, ss, WithStack 451 (Some err))
  | None =>
      store <- invoke (RaftStoreFilepath (filepath_Join [dir; "state.bin"])) ;;
      let s := store.1 in
      match store.2 with
      | Some err => Ret (s, ss, WithStack 455 (Some err))
      | None =>
          snaps <- invoke (NewFileSnapshotStore dir 5) ;;
          let ss := snaps.1 in
          match snaps.2 with
          | Some err => Ret (s, ss, WithStack 459 (Some err))
          | None => Ret (s, ss, None)
          end
      end
  end.

(** [func (t *Peering) Raft(ctx, conf, node, eq, options...) (p raftutil.Protocol, err error)]. *)
Definition Raft (t : Peering) (ctx : Context_) (conf : Config) (node : Node)
    (eq : ClientConn) (options : list ProtocolOption)
  : prog call (Protocol * option error) :=
  let p := zeroProtocol in
  let dir := filepath_Join [Root conf; "raft.d"] in
  err <- invoke (FS (MkdirAll dir perm_0700)) ;;
  match err with
  | Some e => Ret (p, Some e)
  | None =>
      let defaultOptions :=
        [ ProtocolOptionQuorumMinimum (MinimumNodes conf);
          ProtocolOptionEnableSingleNode (MinimumNodes conf <=? 1)%Z;
          ProtocolOptionPassiveReset (passive_reset dir) ] in
      invoke (NewProtocol ctx node eq (defaultOptions ++ options))
  end.

End Code.

(** ** Reading a trace *)

Section Reading.
Context `{Handles}.

(** The operation of a call on the file system, without its answer. *)
Inductive fs_op : Type :=
| OpRemoveAll (path : string)
| OpMkdirAll (path : string) (perm : Z)
| OpRaftStoreFilepath (p : string)
| OpNewFileSnapshotStore (base : string) (retain : Z).

Definition op_of {X : Type} (c : fsCall X) : fs_op :=
  match c with
  | RemoveAll path => OpRemoveAll path
  | MkdirAll path perm => OpMkdirAll path perm
  | RaftStoreFilepath p => OpRaftStoreFilepath p
  | NewFileSnapshotStore base retain => OpNewFileSnapshotStore base retain
  end.

(** The error in the answer to a call on the file system. *)
Definition error_of {X : Type} (c : fsCall X) : X -> option error :=
  match c in fsCall X return X -> option error with
  | RemoveAll _ => fun err => err
  | MkdirAll _ _ => fun err => err
  | RaftStoreFilepath _ => fun answer => answer.2
  | NewFileSnapshotStore _ _ => fun answer => answer.2
  end.

(** The steps of a trace over the file system: each operation with the
    error it was answered with. *)
Definition steps (tr : list (event fsCall)) : list (fs_op * option error) :=
  map (fun e => match e with Event c x => (op_of c, error_of c x) end) tr.

(** The first step that was answered with an error, and the error. *)
Fixpoint failed_step (st : list (fs_op * option error)) : option (fs_op * error) :=
  match st with
  | [] => None
  | (op, Some err) :: _ => Some (op, err)
  | (_, None) :: rest => failed_step rest
  end.

(** The line at which the callback returns when a step failed: one return
    for the remove and the recreate step, one for each store. *)
Definition return_line (op : fs_op) : Z :=
  match op with
  | OpRemoveAll _ | OpMkdirAll _ _ => 451
  | OpRaftStoreFilepath _ => 455
  | OpNewFileSnapshotStore _ _ => 459
  end.

(** The error the callback returns for the first failed step. *)
Definition surfaced (failed : option (fs_op * error)) : option error :=
  match failed with
  | Some (op, err) => WithStack (return_line op) (Some err)
  | None => None
  end.

(** The steps of a passive reset, in the order of the callback's text. *)
Definition reset_plan `{Lib} (dir : string) : list fs_op :=
  [ OpRemoveAll dir;
    OpMkdirAll dir perm_0700;
    OpRaftStoreFilepath (filepath_Join [dir; "state.bin"]);
    OpNewFileSnapshotStore dir 5 ].

(** What the reset needs of the file system and of the store constructors,
    for worlds [W] and a relation [agree] between worlds that are the same
    outside the directory [dir]: the store constructors change nothing
    outside [dir]; and once [dir] was removed and made anew, removing and
    making it again in a world that agrees with that one leads back to it. *)
Record confined `{Lib} {W : Type} (h : handler fsCall W) (dir : string)
    (agree : W -> W -> Prop) : Prop := mkConfined {
  agree_trans : forall a b c : W, agree a b -> agree b c -> agree a c;
  log_store_confined : forall v : W,
    agree v (h _ (RaftStoreFilepath (filepath_Join [dir; "state.bin"])) v).2;
  snapshot_store_confined : forall v : W,
    agree v (h _ (NewFileSnapshotStore dir 5) v).2;
  wipe_restores : forall v0 v1 v2 u u1 : W,
    h _ (RemoveAll dir) v0 = (None, v1) ->
    h _ (MkdirAll dir perm_0700) v1 = (None, v2) ->
    agree v2 u ->
    h _ (RemoveAll dir) u = (None, u1) ->
    h _ (MkdirAll dir perm_0700) u1 = (None, v2)
}.

(** The source lists handed to [commandutils.ClusterJoin] in a trace, one
    per call. *)
Definition joined_sources (tr : list (event call)) : list (list Source) :=
  omap (fun e =>
          match e with
          | Event c _ =>
              match c with
              | ClusterJoin _ _ _ defaultPeers => Some defaultPeers
              | _ => None
              end
          end) tr.

(** The persisted snapshot of peers among the sources. *)
Definition is_snapshot (s : Source) : bool :=
  match s with
  | Snapshot _ => true
  | _ => false
  end.

(** The live discovery sources: peer-to-peer, DNS, AWS autoscaling groups,
    GCloud target pools. A static list is none ([NewStaticTCP()] is the
    no-op source of a discovery that is switched off). *)
Definition is_discovery (s : Source) : bool :=
  match s with
  | P2P _ _ | DNS _ _ | AWSAutoscaling _ _ | GCloudTargetPool _ _ => true
  | _ => false
  end.

(** The order static addresses, snapshot, discovery on a list of sources,
    read as the order of attempts: the snapshot stands before every
    discovery source. *)
Definition snapshot_before_discovery (sources : list Source) : Prop :=
  forall (i j : nat) (s d : Source),
    sources !! i = Some s -> sources !! j = Some d ->
    is_snapshot s = true -> is_discovery d = true -> i < j.

(** The sources [Join] builds from the flags, for a bind port. *)
Definition dns_source (t : Peering) (config : Config) (port : Z) : Source :=
  if DNSEnabled t
  then NewDNS port (elems (DNSBootstrap config) ++ [ServerName config])
  else NewStaticTCP [].

Definition aws_source (t : Peering) (config : Config) (port : Z) : Source :=
  if AWSEnabled t
  then AWSAutoscaling port (AutoscalingGroups (AWSBootstrap config))
  else NewStaticTCP [].

Definition gcloud_source (t : Peering) (config : Config) (port : Z) : Source :=
  if GCloudEnabled t
  then GCloudTargetPool port (MinimumNodes config)
  else NewStaticTCP [].

(** The lines [Join] logs for the discoveries that are switched on. *)
Definition enabled_lines (t : Peering) : list (event call) :=
  (if DNSEnabled t
   then [Event (Println [LogString "dns peering enabled"]) tt] else []) ++
  (if AWSEnabled t
   then [Event (Println [LogString "aws autoscale groups peering enabled"]) tt] else []) ++
  (if GCloudEnabled t
   then [Event (Println [LogString "gcloud target pool peering enabled"]) tt] else []).

End Reading.

End cmdopts.

(* ===================================================================== *)
(** * A reference environment *)
(* ===================================================================== *)

(** One environment to run the programs in: handles are strings, the file
    system is a finite map from paths to the kind of node found there, and
    the calls into the other packages fail when the world lists them as
    broken. *)
Module sim.
Import agent cmdopts.

Definition handles : Handles :=
  {| Context_ := unit; Joiner := unit; PeeringFile := string;
     Signer := string; TLSConfig := string; Dialer := string;
     Node := string; ClientConn := unit;
     Storage := string; SnapshotStore := string * Z;
     Protocol := bool; OtherOption := string;
     nilStorage := ""; nilSnapshotStore := ("", 0%Z); zeroProtocol := false |}.

Definition lib : Lib :=
  {| filepath_Join := String.concat "/";
     JoinHostPort := fun host port => (host ++ ":" ++ port)%string;
     Itoa := pretty;
     URIDiscovery := fun address => address;
     EnvAgentClusterP2PDiscoveryPort := "BEARDED_WOOKIE_AGENT_P2P_DISCOVERY_PORT" |}.

#[local] Existing Instance handles.
#[local] Existing Instance lib.

(** What a path names: a directory, a regular file, or a node that cannot
    be unlinked (a mount point, a busy file). *)
Inductive node : Type := Dir | File | Busy.

#[local] Instance node_eq_dec : EqDecision node.
Proof. solve_decision. Defined.

(** [under dir p]: [p] is [dir] or lies below it. *)
Definition under (dir p : string) : bool :=
  bool_decide (p = dir) || String.prefix (dir ++ "/") p.

Definition removable (dir : string) (w : gmap string node) : bool :=
  bool_decide (filter (fun pn => under dir pn.1 = true /\ pn.2 = Busy) w = ∅).

(** The file system: [os.RemoveAll] removes the path and what is below it,
    all but the nodes that cannot be unlinked, which make it fail;
    [os.MkdirAll] makes the directory unless the path names a file; the log
    store opens or creates its file; the snapshot store needs its base
    directory and a positive retain count, and keeps its snapshots in
    [base/snapshots]. *)
Definition fs_handler : handler fsCall (gmap string node) :=
  fun X c =>
    match c in fsCall X return gmap string node -> X * gmap string node with
    | RemoveAll path => fun w =>
        if removable path w
        then (None, filter (fun pn => under path pn.1 = false) w)
        else (Some (PathError "unlinkat" path "device or resource busy"),
              filter (fun pn => under path pn.1 = false \/ pn.2 = Busy) w)
    | MkdirAll path perm => fun w =>
        match w !! path with
        | Some File => (Some (PathError "mkdir" path "not a directory"), w)
        | Some _ => (None, w)
        | None => (None, <[path := Dir]> w)
        end
    | RaftStoreFilepath p => fun w =>
        match w !! p with
        | Some File => ((p, None), w)
        | Some _ => (("", Some (PathError "open" p "is a directory")), w)
        | None => ((p, None), <[p := File]> w)
        end
    | NewFileSnapshotStore base retain => fun w =>
        if (retain <? 1)%Z
        then ((("", 0%Z), Some (errorString "must retain at least one snapshot")), w)
        else
          match w !! base with
          | Some Dir =>
              (((base, retain), None), <[(base ++ "/snapshots")%string := Dir]> w)
          | _ => ((("", 0%Z), Some (errorString "snapshot path not accessible")), w)
          end
    end.

(** Two file systems that are the same outside [dir]. *)
Definition agree_outside (dir : string) (a b : gmap string node) : Prop :=
  forall p : string, under dir p = false -> a !! p = b !! p.

(** A storage directory left by an earlier run: a log, and a snapshot. *)
Definition used_files : gmap string node :=
  {[ "/var/cache/bw" := Dir;
     "/var/cache/bw/raft.d" := Dir;
     "/var/cache/bw/raft.d/state.bin" := File;
     "/var/cache/bw/raft.d/snapshots" := Dir;
     "/var/cache/bw/raft.d/snapshots/2-17-1700000000000" := Dir ]}.

(** The world of the reference environment. *)
Record world : Type := mkWorld {
  broken : list string;
  environ : gmap string string;
  files : gmap string node;
  printed : list (list logarg)
}.

Definition set_files (w : world) (f : gmap string node) : world :=
  {| broken := broken w; environ := environ w; files := f; printed := printed w |}.

Definition print (w : world) (args : list logarg) : world :=
  {| broken := broken w; environ := environ w; files := files w;
     printed := printed w ++ [args] |}.

(** The answer of a call into another package: its value, or the zero
    value and an error when the world lists the call as broken. *)
Definition answer {A : Type} (name : string) (zero v : A) (w : world)
  : A * option error :=
  if bool_decide (name ∈ broken w)
  then (zero, Some (errorString name))
  else (v, None).

Definition env : handler call world :=
  fun X c =>
    match c in call X return world -> X * world with
    | Println args => fun w => (tt, print w args)
    | envx_String fallback key => fun w =>
        (default fallback (environ w !! key), w)
    | NewAgentSigner root => fun w =>
        (answer "NewAgentSigner" "" ("signer of " ++ root)%string w, w)
    | TLSGenServer c => fun w =>
        (answer "TLSGenServer" "" ("tls of " ++ ServerName c)%string w, w)
    | DefaultDialer address tlsconfig ss => fun w =>
        (answer "DefaultDialer" "" ("dialer to " ++ address)%string w, w)
    | ClusterJoin ctx conf c defaultPeers => fun w =>
        ((answer "ClusterJoin" tt tt w).2, w)
    | FS c => fun w =>
        let '(x, f) := fs_handler _ c (files w) in (x, set_files w f)
    | NewProtocol ctx node eq options => fun w =>
        (answer "NewProtocol" false true w, w)
    end.

(** A configuration: three nodes, bound to 10.0.0.1:2001, two cluster
    tokens. *)
Definition config : Config :=
  {| Name := "node1"; Root := "/var/cache/bw"; KeepN := 3; MinimumNodes := 3;
     agent.Bootstrap := mkBootstrap 2147483647 false "";
     SnapshotFrequency := 3600000000000;
     P2PBind := Some (mkTCPAddr [x0a; x00; x00; x01] 2001 "");
     P2PAdvertised := None; AlternateBinds := None;
     ClusterTokens := Some ["new"; "old"];
     ServerName := "prod-cluster"; CA := "";
     CredentialsMode := ""; CredentialsDir := "";
     Credentials := mkCredentials "" "";
     DNSBind := mkDnsBind 60 3600000000000;
     DNSBootstrap := None;
     AWSBootstrap := mkAwsBootstrap None |}.

(** The same configuration with no cluster token. *)
Definition config_no_tokens : Config := set_ClusterTokens config None.

(** A configuration that was never given a bind address, and one for a
    cluster of a single node. *)
Definition config_unbound : Config :=
  {| Name := "node1"; Root := "/var/cache/bw"; KeepN := 3; MinimumNodes := 3;
     agent.Bootstrap := mkBootstrap 2147483647 false "";
     SnapshotFrequency := 3600000000000;
     P2PBind := None; P2PAdvertised := None; AlternateBinds := None;
     ClusterTokens := Some ["only"];
     ServerName := "prod-cluster"; CA := "";
     CredentialsMode := ""; CredentialsDir := "";
     Credentials := mkCredentials "" "";
     DNSBind := mkDnsBind 60 3600000000000;
     DNSBootstrap := None;
     AWSBootstrap := mkAwsBootstrap None |}.

Definition config_single_node : Config :=
  {| Name := "node1"; Root := "/var/cache/bw"; KeepN := 3; MinimumNodes := 1;
     agent.Bootstrap := mkBootstrap 2147483647 false "";
     SnapshotFrequency := 3600000000000;
     P2PBind := Some (mkTCPAddr [x0a; x00; x00; x01] 2001 "");
     P2PAdvertised := None; AlternateBinds := None;
     ClusterTokens := Some ["only"];
     ServerName := "prod-cluster"; CA := "";
     CredentialsMode := ""; CredentialsDir := "";
     Credentials := mkCredentials "" "";
     DNSBind := mkDnsBind 60 3600000000000;
     DNSBootstrap := None;
     AWSBootstrap := mkAwsBootstrap None |}.

(** No bootstrap address, every discovery flag off. *)
Definition peering : Peering :=
  {| Bootstrap := None; DNSEnabled := false; AWSEnabled := false;
     GCloudEnabled := false |}.

(** One static bootstrap address, every discovery switched on. *)
Definition peering_all : Peering :=
  {| Bootstrap := Some [Some (mkTCPAddr [x0a; x00; x00; x02] 2001 "")];
     DNSEnabled := true; AWSEnabled := true; GCloudEnabled := true |}.

(** A world where every call succeeds, and one where the local signing
    identity cannot be built. *)
Definition healthy : world :=
  {| broken := []; environ := ∅; files := ∅; printed := [] |}.

Definition no_signer : world :=
  {| broken := ["NewAgentSigner"]; environ := ∅; files := ∅; printed := [] |}.

(** A gossip library whose keyring constructor accepts keys of 16, 24 or 32
    bytes, and returns the primary key followed by the other keys. *)
Definition valid_key (key : bytes) : bool :=
  bool_decide (length key ∈ [16; 24; 32]).

Definition gossip : Gossip :=
  {| KeyringT := list bytes;
     NewKeyring := fun keys primaryKey =>
       if forallb valid_key (primaryKey :: keys)
       then (primaryKey :: keys, None)
       else ([], Some (errorString "key size must be 16, 24 or 32 bytes")) |}.

End sim.

(* ===================================================================== *)
(** * path/filepath, strings, strconv and net: the functions the code calls *)
(* ===================================================================== *)

(** Package [path/filepath] on a Unix system: the separator is the slash
    and a path has no volume name. *)
Module filepath.

Definition IsPathSeparator (c : ascii) : bool := Ascii.eqb c "/".

(** [r == n || os.IsPathSeparator(path[r])], for the rest of the path from
    [r] on. *)
Definition at_boundary (rest : list ascii) : bool :=
  match rest with
  | [] => true
  | c :: _ => IsPathSeparator c
  end.

(** The loop [for out.w > dotdot && !os.IsPathSeparator(out.index(out.w)) { out.w-- }]
    on the write index [w] of the output buffer. *)
Fixpoint back_up (steps : nat) (out : list ascii) (w dotdot : nat) : nat :=
  match steps with
  | O => w
  | S steps' =>
      if (dotdot <? w) && negb (IsPathSeparator (nth w out "/"%char))
      then back_up steps' out (w - 1) dotdot
      else w
  end.

(** Dropping the last element of the output: [out.w--], then the loop. *)
Definition drop_element (out : list ascii) (dotdot : nat) : list ascii :=
  take (back_up (length out) out (length out - 1) dotdot) out.

(** The element that starts the rest of the path: the bytes up to the next
    separator. *)
Fixpoint element (rest : list ascii) : list ascii :=
  match rest with
  | [] => []
  | c :: rest' => if IsPathSeparator c then [] else c :: element rest'
  end.

(** The loop [for r < n] of [Clean], on the rest of the path from [r] on,
    the output written so far and the index [dotdot]; every turn reads at
    least one byte, so as many turns as the path has bytes are enough. *)
Fixpoint clean_loop (turns : nat) (rooted : bool) (rest out : list ascii)
    (dotdot : nat) : list ascii :=
  match turns with
  | O => out
  | S turns' =>
      match rest with
      | [] => out
      | c :: rest1 =>
          if IsPathSeparator c then
            clean_loop turns' rooted rest1 out dotdot
          else if Ascii.eqb c "." && at_boundary rest1 then
            clean_loop turns' rooted rest1 out dotdot
          else if Ascii.eqb c "." &&
                  match rest1 with
                  | c1 :: rest2 => Ascii.eqb c1 "." && at_boundary rest2
                  | [] => false
                  end then
            let rest2 := drop 1 rest1 in
            if dotdot <? length out then
              clean_loop turns' rooted rest2 (drop_element out dotdot) dotdot
            else if negb rooted then
              let out1 := if 0 <? length out then out ++ ["/"%char] else out in
              let out2 := out1 ++ ["."%char; "."%char] in
              clean_loop turns' rooted rest2 out2 (length out2)
            else
              clean_loop turns' rooted rest2 out dotdot
          else
            let out1 :=
              if (rooted && negb (length out =? 1))
                 || (negb rooted && negb (length out =? 0))
              then out ++ ["/"%char] else out in
            clean_loop turns' rooted (drop (length (element rest)) rest)
                       (out1 ++ element rest) dotdot
      end
  end.

(** [Clean(path)]: the shortest path name equivalent to [path] by purely
    lexical processing. *)
Definition Clean (path : string) : string :=
  match list_ascii_of_string path with
  | [] => "."
  | c :: rest =>
      let rooted := IsPathSeparator c in
      let out :=
        if rooted
        then clean_loop (length rest) rooted rest ["/"%char] 1
        else clean_loop (S (length rest)) rooted (c :: rest) [] 0 in
      string_of_list_ascii (if length out =? 0 then ["."%char] else out)
  end.

(** [Join(elem...)]: the elements from the first one that is not empty on,
    joined by the separator and cleaned; the empty string when every
    element is empty. *)
Fixpoint Join (elem : list string) : string :=
  match elem with
  | [] => ""
  | e :: rest =>
      if String.eqb e "" then Join rest
      else Clean (String.concat "/" (e :: rest))
  end.

(** [path[:i+1]] for the index [i] of the last separator of [path]: the
    path without the bytes after its last separator. *)
Definition up_to_last_separator (path : list ascii) : list ascii :=
  take (length path - length (element (rev path))) path.

(** [Dir(path)]: all but the last element of [path], cleaned. *)
Definition Dir (path : string) : string :=
  Clean (string_of_list_ascii (up_to_last_separator (list_ascii_of_string path))).

(** [IsAbs(path)]: [strings.HasPrefix(path, "/")]. *)
Definition IsAbs (path : string) : bool := String.prefix "/" path.

(** The first byte of a text is a slash; a text is empty or starts with
    another byte. *)
Definition rooted (l : list ascii) : Prop := head l = Some "/"%char.

Definition unrooted (l : list ascii) : Prop := head l <> Some "/"%char.

(** A plain name: one element of a path that names an entry, neither
    empty, nor [.] or [..], and without a separator. *)
Definition plain_name (name : string) : bool :=
  negb (String.eqb name "") && negb (String.eqb name ".")
  && negb (String.eqb name "..")
  && forallb (fun c => negb (IsPathSeparator c)) (list_ascii_of_string name).

(** The path [path] is the entry [name] of the directory [parent], a
    cleaned path: of the directory of the process, of the root of the file
    system, or of another directory. *)
Definition entry_of (path parent name : string) : Prop :=
  (parent = "."%string /\ path = name)
  \/ (parent = "/"%string /\ path = ("/" ++ name)%string)
  \/ path = (parent ++ "/" ++ name)%string.

End filepath.

(** Package [strings]: [ReplaceAll] and [Split] for a pattern that is not
    empty (the code's patterns are a newline, a comma and a space). *)
Module strings.

(** [strings.HasPrefix] on the bytes of the strings. *)
Fixpoint has_prefix (pre s : list ascii) : bool :=
  match pre, s with
  | [], _ => true
  | p :: pre', c :: s' => Ascii.eqb p c && has_prefix pre' s'
  | _ :: _, [] => false
  end.

(** The loop of [Replace] with no limit: at each leftmost occurrence of
    [old] the text [new] is written and the scan goes on behind the
    occurrence. *)
Fixpoint replace_loop (turns : nat) (s old new : list ascii) : list ascii :=
  match turns with
  | O => s
  | S turns' =>
      match s with
      | [] => []
      | c :: s' =>
          if has_prefix old s
          then new ++ replace_loop turns' (drop (length old) s) old new
          else c :: replace_loop turns' s' old new
      end
  end.

(** [ReplaceAll(s, old, new)]. *)
Definition ReplaceAll (s old new : string) : string :=
  if String.eqb old new then s
  else string_of_list_ascii
         (replace_loop (String.length s) (list_ascii_of_string s)
                       (list_ascii_of_string old) (list_ascii_of_string new)).

(** The loop of [genSplit]: [piece] holds the bytes read since the last
    occurrence of [sep]. *)
Fixpoint split_loop (turns : nat) (s sep piece : list ascii) : list (list ascii) :=
  match turns with
  | O => [piece ++ s]
  | S turns' =>
      match s with
      | [] => [piece]
      | c :: s' =>
          if has_prefix sep s
          then piece :: split_loop turns' (drop (length sep) s) sep []
          else split_loop turns' s' sep (piece ++ [c])
      end
  end.

(** [Split(s, sep)]: the pieces of [s] between the occurrences of [sep];
    one piece more than there are occurrences. *)
Definition Split (s sep : string) : list string :=
  map string_of_list_ascii
      (split_loop (String.length s) (list_ascii_of_string s)
                  (list_ascii_of_string sep) []).

End strings.

(** [strconv.Itoa]: the decimal text of an integer. *)
Module strconv.

Definition Itoa (i : Z) : string := pretty i.

End strconv.

(** Package [net]: [JoinHostPort], which puts a host with a colon (a
    literal IPv6 address) in brackets. *)
Module net.

Definition has_colon (host : string) : bool :=
  existsb (fun c => Ascii.eqb c ":") (list_ascii_of_string host).

Definition JoinHostPort (host port : string) : string :=
  if has_colon host
  then ("[" ++ host ++ "]:" ++ port)%string
  else (host ++ ":" ++ port)%string.

End net.

(** The conversion [uint32(x)] of an [int]: the value modulo 2^32. *)
Definition uint32 (x : Z) : Z := x mod 2 ^ 32.

(** The functions of the Go library as package [cmdopts] calls them, for
    any [agent.URIDiscovery] and any name of the environment variable. *)
Definition go_lib (URIDiscovery : string -> string) (key : string) : cmdopts.Lib :=
  {| cmdopts.filepath_Join := filepath.Join;
     cmdopts.JoinHostPort := net.JoinHostPort;
     cmdopts.Itoa := strconv.Itoa;
     cmdopts.URIDiscovery := URIDiscovery;
     cmdopts.EnvAgentClusterP2PDiscoveryPort := key |}.

(* ===================================================================== *)
(** * Package agent: options, defaults and the peer of a configuration *)
(* ===================================================================== *)

Module config.
Import agent.

(** The constants and functions of packages [bw] and [systemx], and the
    function [newTLSAgent] of package [agent], none of which are in the
    source at hand: [bw.DefaultP2PPort], [bw.DefaultDirAgentCredentials],
    [bw.DefaultTLSCertCA], [bw.DefaultEnvironmentName], what
    [bw.DefaultCacheDirectory()] and [systemx.HostnameOrLocalhost()] return
    in this process, and [net.IP.String]. The function [newTLSAgent] returns
    a [ConfigOption]. *)
Class Package : Type := {
  DefaultP2PPort : Z;
  DefaultDirAgentCredentials : string;
  DefaultTLSCertCA : string;
  DefaultEnvironmentName : string;
  DefaultCacheDirectory : string;
  HostnameOrLocalhost : string;
  newTLSAgent : string -> Config -> Config;
  IP_String : bytes -> string
}.

(** [type ConfigOption]: a function on a pointer to a [Config], here what
    the option does to the configuration it is handed. *)
Definition ConfigOption : Type := Config -> Config.

(** The loop [for _, opt := range options { opt(&c) }]. *)
Definition apply_options (options : list ConfigOption) (c : Config) : Config :=
  fold_left (fun c opt => opt c) options c.

Definition set_Name (c : Config) (v : string) : Config :=
  {| Name := v; Root := Root c; KeepN := KeepN c;
     MinimumNodes := MinimumNodes c; Bootstrap := Bootstrap c;
     SnapshotFrequency := SnapshotFrequency c; P2PBind := P2PBind c;
     P2PAdvertised := P2PAdvertised c; AlternateBinds := AlternateBinds c;
     ClusterTokens := ClusterTokens c;
     ServerName := ServerName c; CA := CA c;
     CredentialsMode := CredentialsMode c; CredentialsDir := CredentialsDir c;
     Credentials := Credentials c; DNSBind := DNSBind c;
     DNSBootstrap := DNSBootstrap c; AWSBootstrap := AWSBootstrap c |}.

Definition set_P2PBind (c : Config) (v : option TCPAddr) : Config :=
  {| Name := Name c; Root := Root c; KeepN := KeepN c;
     MinimumNodes := MinimumNodes c; Bootstrap := Bootstrap c;
     SnapshotFrequency := SnapshotFrequency c; P2PBind := v;
     P2PAdvertised := P2PAdvertised c; AlternateBinds := AlternateBinds c;
     ClusterTokens := ClusterTokens c;
     ServerName := ServerName c; CA := CA c;
     CredentialsMode := CredentialsMode c; CredentialsDir := CredentialsDir c;
     Credentials := Credentials c; DNSBind := DNSBind c;
     DNSBootstrap := DNSBootstrap c; AWSBootstrap := AWSBootstrap c |}.

Definition set_P2PAdvertised (c : Config) (v : option TCPAddr) : Config :=
  {| Name := Name c; Root := Root c; KeepN := KeepN c;
     MinimumNodes := MinimumNodes c; Bootstrap := Bootstrap c;
     SnapshotFrequency := SnapshotFrequency c; P2PBind := P2PBind c;
     P2PAdvertised := v; AlternateBinds := AlternateBinds c;
     ClusterTokens := ClusterTokens c;
     ServerName := ServerName c; CA := CA c;
     CredentialsMode := CredentialsMode c; CredentialsDir := CredentialsDir c;
     Credentials := Credentials c; DNSBind := DNSBind c;
     DNSBootstrap := DNSBootstrap c; AWSBootstrap := AWSBootstrap c |}.

Definition set_AlternateBinds (c : Config) (v : slice (option TCPAddr)) : Config :=
  {| Name := Name c; Root := Root c; KeepN := KeepN c;
     MinimumNodes := MinimumNodes c; Bootstrap := Bootstrap c;
     SnapshotFrequency := SnapshotFrequency c; P2PBind := P2PBind c;
     P2PAdvertised := P2PAdvertised c; AlternateBinds := v;
     ClusterTokens := ClusterTokens c;
     ServerName := ServerName c; CA := CA c;
     CredentialsMode := CredentialsMode c; CredentialsDir := CredentialsDir c;
     Credentials := Credentials c; DNSBind := DNSBind c;
     DNSBootstrap := DNSBootstrap c; AWSBootstrap := AWSBootstrap c |}.

Definition set_CredentialsDir (c : Config) (v : string) : Config :=
  {| Name := Name c; Root := Root c; KeepN := KeepN c;
     MinimumNodes := MinimumNodes c; Bootstrap := Bootstrap c;
     SnapshotFrequency := SnapshotFrequency c; P2PBind := P2PBind c;
     P2PAdvertised := P2PAdvertised c; AlternateBinds := AlternateBinds c;
     ClusterTokens := ClusterTokens c;
     ServerName := ServerName c; CA := CA c;
     CredentialsMode := CredentialsMode c; CredentialsDir := v;
     Credentials := Credentials c; DNSBind := DNSBind c;
     DNSBootstrap := DNSBootstrap c; AWSBootstrap := AWSBootstrap c |}.

Definition set_Credentials_Directory (c : Config) (v : string) : Config :=
  {| Name := Name c; Root := Root c; KeepN := KeepN c;
     MinimumNodes := MinimumNodes c; Bootstrap := Bootstrap c;
     SnapshotFrequency := SnapshotFrequency c; P2PBind := P2PBind c;
     P2PAdvertised := P2PAdvertised c; AlternateBinds := AlternateBinds c;
     ClusterTokens := ClusterTokens c;
     ServerName := ServerName c; CA := CA c;
     CredentialsMode := CredentialsMode c; CredentialsDir := CredentialsDir c;
     Credentials := mkCredentials (Mode (Credentials c)) v;
     DNSBind := DNSBind c;
     DNSBootstrap := DNSBootstrap c; AWSBootstrap := AWSBootstrap c |}.

Definition set_CA (c : Config) (v : string) : Config :=
  {| Name := Name c; Root := Root c; KeepN := KeepN c;
     MinimumNodes := MinimumNodes c; Bootstrap := Bootstrap c;
     SnapshotFrequency := SnapshotFrequency c; P2PBind := P2PBind c;
     P2PAdvertised := P2PAdvertised c; AlternateBinds := AlternateBinds c;
     ClusterTokens := ClusterTokens c;
     ServerName := ServerName c; CA := v;
     CredentialsMode := CredentialsMode c; CredentialsDir := CredentialsDir c;
     Credentials := Credentials c; DNSBind := DNSBind c;
     DNSBootstrap := DNSBootstrap c; AWSBootstrap := AWSBootstrap c |}.

(** [time.Hour] in nanoseconds, and [math.MaxInt32]. *)
Definition Hour : Z := 3600 * 10 ^ 9.
Definition MaxInt32 : Z := 2 ^ 31 - 1.

Section Functions.
Context `{Package}.

(** [ConfigOptionCompose(options...)]: the options applied one after the
    other. *)
Definition ConfigOptionCompose (options : list ConfigOption) : ConfigOption :=
  fun c => apply_options options c.

(** [ConfigOptionP2P(p)] sets the address to bind. The configuration keeps
    the pointer; none of the functions here writes through it. *)
Definition ConfigOptionP2P (p : option TCPAddr) : ConfigOption :=
  fun c => set_P2PBind c p.

(** [ConfigOptionDefaultBind(ip)]: the default connection bindings. *)
Definition ConfigOptionDefaultBind (ip : bytes) : ConfigOption :=
  ConfigOptionCompose
    [ ConfigOptionP2P (Some {| IP := ip; Port := DefaultP2PPort; Zone := "" |}) ].

(** [ConfigOptionAdvertised(ip)] sets the address to advertise. *)
Definition ConfigOptionAdvertised (ip : option TCPAddr) : ConfigOption :=
  fun c => set_P2PAdvertised c ip.

(** [ConfigOptionSecondaryBindings(alternates...)]; a call without
    arguments hands over the nil slice. *)
Definition ConfigOptionSecondaryBindings (alternates : slice (option TCPAddr))
  : ConfigOption :=
  fun c => set_AlternateBinds c alternates.

(** [ConfigOptionName(name)] sets the name of the agent. *)
Definition ConfigOptionName (name : string) : ConfigOption :=
  fun c => set_Name c name.

(** [NewConfig(options...)]: the default configuration, the TLS defaults of
    the default environment, then the options. *)
Definition NewConfig (options : list ConfigOption) : Config :=
  let c :=
    {| Name := HostnameOrLocalhost;
       Root := DefaultCacheDirectory;
       KeepN := 3;
       MinimumNodes := 3;
       Bootstrap := {| Attempts := MaxInt32; ReadOnly := false;
                       ArchiveDirectory := "" |};
       SnapshotFrequency := Hour;
       P2PBind := None; P2PAdvertised := None; AlternateBinds := None;
       ClusterTokens := None; ServerName := ""; CA := "";
       CredentialsMode := ""; CredentialsDir := "";
       Credentials := mkCredentials "" "";
       DNSBind := {| TTL := 60; Frequency := Hour |};
       DNSBootstrap := None;
       AWSBootstrap := mkAwsBootstrap None |} in
  let c := newTLSAgent DefaultEnvironmentName c in
  apply_options options c.

(** [Config.EnsureDefaults]: the values after a configuration was loaded.
    The receiver is a copy; the four statements run in the order of the
    text, so the default of [CA] is built on the directory the first
    statement may just have set. *)
Definition EnsureDefaults (t : Config) : Config :=
  let t :=
    if String.eqb (CredentialsDir t) ""
    then set_CredentialsDir t (filepath.Join [Root t; DefaultDirAgentCredentials])
    else t in
  let t :=
    if String.eqb (Directory (Credentials t)) ""
    then set_Credentials_Directory t
           (filepath.Join [Root t; DefaultDirAgentCredentials])
    else t in
  let t :=
    if String.eqb (CA t) ""
    then set_CA t (filepath.Join [CredentialsDir t; DefaultTLSCertCA])
    else t in
  let t :=
    match P2PAdvertised t with
    | None => set_P2PAdvertised t (P2PBind t)
    | Some _ => t
    end in
  t.

(** [Config.Clone(options...)]: a copy with the options applied. *)
Definition Clone (t : Config) (options : list ConfigOption) : Config :=
  apply_options options t.

(** [Peer_Node], the status [Peer] gives, among the states of a peer. *)
Inductive Peer_State : Type :=
| Peer_Node
| Peer_State_other (n : Z).

(** The fields of [agent.Peer] that [Config.Peer] sets; the others keep
    their zero value. *)
Record Peer_ : Type := mkPeer {
  Status : Peer_State;
  Peer_Name : string;
  Ip : string;
  P2PPort : Z
}.

(** [Config.Peer]: the peer of the configuration. It reads the advertised
    address through the pointer, and panics when the pointer is nil. *)
Definition Peer (t : Config) : result Peer_ :=
  match P2PAdvertised t with
  | None => Panicked
  | Some advertised =>
      Returned {| Status := Peer_Node;
                  Peer_Name := Name t;
                  Ip := IP_String (IP advertised);
                  P2PPort := uint32 (Port advertised) |}
  end.

End Functions.

End config.

(* ===================================================================== *)
(** * Package agent: the configuration of a client *)
(* ===================================================================== *)

Module client.

(** [type Deployment struct]. *)
Record DeploymentT : Type := mkDeployment {
  DataDir : string;
  Timeout : Z;
  Prompt : string;
  CommitRef : string
}.

(** The anonymous struct of [ConfigClient.Credentials]. *)
Record CredentialsT : Type := mkCredentials {
  Mode : string;
  Directory : string;
  Insecure : bool
}.

(** [type ConfigClient struct]; [float64] is the type of [Concurrency],
    which the code stores and hands on. *)
Record ConfigClient {float64 : Type} : Type := mkConfigClient {
  root : string;
  Address : string;
  Concurrency : float64;
  Deployment : DeploymentT;
  Credentials : CredentialsT;
  CA : string;
  ServerName : string;
  Environment : string
}.
Arguments ConfigClient float64 : clear implicits.

(** What the code takes from packages [bw] and [systemx] and from the rest
    of package [agent], none of which are in the source at hand: the
    constants [bw.DefaultDeployTimeout], [bw.DefaultDeployspaceDir],
    [bw.DefaultEnvironmentName], [bw.DefaultP2PPort], what
    [systemx.HostnameOrLocalhost()] returns in this process, the option
    [ConfigClientTLS(name)], and [bw.ExpandAndDecodeFile(path, &t)], which
    returns the configuration as decoded and an error. *)
Class Package {float64 : Type} : Type := {
  DefaultDeployTimeout : Z;
  DefaultDeployspaceDir : string;
  DefaultEnvironmentName : string;
  DefaultP2PPort : Z;
  HostnameOrLocalhost : string;
  zero_float64 : float64;
  ConfigClientTLS : string -> ConfigClient float64 -> ConfigClient float64;
  ExpandAndDecodeFile :
    string -> ConfigClient float64 -> ConfigClient float64 * option error
}.

Section Functions.
Context {float64 : Type} `{!@Package float64}.

(** [type ConfigClientOption]: a function on a pointer to a
    [ConfigClient], here what the option does to the configuration. *)
Definition ConfigClientOption : Type := ConfigClient float64 -> ConfigClient float64.

Definition set_root (c : ConfigClient float64) (v : string) : ConfigClient float64 :=
  {| root := v; Address := Address c; Concurrency := Concurrency c;
     Deployment := Deployment c; Credentials := Credentials c; CA := CA c;
     ServerName := ServerName c; Environment := Environment c |}.

Definition set_Address (c : ConfigClient float64) (v : string) : ConfigClient float64 :=
  {| root := root c; Address := v; Concurrency := Concurrency c;
     Deployment := Deployment c; Credentials := Credentials c; CA := CA c;
     ServerName := ServerName c; Environment := Environment c |}.

Definition set_ServerName (c : ConfigClient float64) (v : string) : ConfigClient float64 :=
  {| root := root c; Address := Address c; Concurrency := Concurrency c;
     Deployment := Deployment c; Credentials := Credentials c; CA := CA c;
     ServerName := v; Environment := Environment c |}.

Definition set_Concurrency (c : ConfigClient float64) (v : float64) : ConfigClient float64 :=
  {| root := root c; Address := Address c; Concurrency := v;
     Deployment := Deployment c; Credentials := Credentials c; CA := CA c;
     ServerName := ServerName c; Environment := Environment c |}.

Definition set_Environment (c : ConfigClient float64) (v : string) : ConfigClient float64 :=
  {| root := root c; Address := Address c; Concurrency := Concurrency c;
     Deployment := Deployment c; Credentials := Credentials c; CA := CA c;
     ServerName := ServerName c; Environment := v |}.

Definition set_Deployment (c : ConfigClient float64) (v : DeploymentT) : ConfigClient float64 :=
  {| root := root c; Address := Address c; Concurrency := Concurrency c;
     Deployment := v; Credentials := Credentials c; CA := CA c;
     ServerName := ServerName c; Environment := Environment c |}.

Definition set_Credentials (c : ConfigClient float64) (v : CredentialsT) : ConfigClient float64 :=
  {| root := root c; Address := Address c; Concurrency := Concurrency c;
     Deployment := Deployment c; Credentials := v; CA := CA c;
     ServerName := ServerName c; Environment := Environment c |}.

(** [CCOptionTLSConfig(name)]. *)
Definition CCOptionTLSConfig (name : string) : ConfigClientOption :=
  ConfigClientTLS name.

(** [CCOptionInsecure(b)]. *)
Definition CCOptionInsecure (b : bool) : ConfigClientOption :=
  fun c =>
    set_Credentials c
      {| Mode := Mode (Credentials c); Directory := Directory (Credentials c);
         Insecure := b |}.

(** [CCOptionAddress(s)] sets the address, and the server name with it. *)
Definition CCOptionAddress (s : string) : ConfigClientOption :=
  fun c =>
    let c := set_Address c (net.JoinHostPort s (strconv.Itoa DefaultP2PPort)) in
    set_ServerName c s.

(** [CCOptionDeployDataDir(s)]. *)
Definition CCOptionDeployDataDir (s : string) : ConfigClientOption :=
  fun c =>
    set_Deployment c
      {| DataDir := s; Timeout := Timeout (Deployment c);
         Prompt := Prompt (Deployment c); CommitRef := CommitRef (Deployment c) |}.

(** [CCOptionConcurrency(d)]. *)
Definition CCOptionConcurrency (d : float64) : ConfigClientOption :=
  fun c => set_Concurrency c d.

(** [CCOptionEnvironment(s)]. *)
Definition CCOptionEnvironment (s : string) : ConfigClientOption :=
  fun c => set_Environment c s.

(** [NewConfigClient(template, options...)]: the template is passed by
    value, the options work on the copy. *)
Definition NewConfigClient (template : ConfigClient float64)
    (options : list ConfigClientOption) : ConfigClient float64 :=
  fold_left (fun template opt => opt template) options template.

(** [defaultDeployment()]. *)
Definition defaultDeployment : DeploymentT :=
  {| DataDir := DefaultDeployspaceDir; Timeout := DefaultDeployTimeout;
     Prompt := ""; CommitRef := "" |}.

(** The struct literal of [DefaultConfigClient] and [ExampleConfigClient]:
    a deployment and the address, every other field zero. *)
Definition literal (deploy : DeploymentT) : ConfigClient float64 :=
  {| root := ""; Address := HostnameOrLocalhost; Concurrency := zero_float64;
     Deployment := deploy; Credentials := mkCredentials "" "" false;
     CA := ""; ServerName := ""; Environment := "" |}.

(** [DefaultConfigClient(options...)]. *)
Definition DefaultConfigClient (options : list ConfigClientOption)
  : ConfigClient float64 :=
  let config := literal defaultDeployment in
  let config := ConfigClientTLS DefaultEnvironmentName config in
  NewConfigClient config options.

(** [ExampleConfigClient(options...)]. *)
Definition ExampleConfigClient (options : list ConfigClientOption)
  : ConfigClient float64 :=
  let deploy := defaultDeployment in
  let deploy :=
    {| DataDir := DataDir deploy; Timeout := Timeout deploy;
       Prompt := "are you sure you want to deploy? (remove this field to disable the prompt)";
       CommitRef := CommitRef deploy |} in
  let config := literal deploy in
  let config := ConfigClientTLS DefaultEnvironmentName config in
  NewConfigClient config options.

(** [ConfigClient.LoadConfig(path)]: decodes the file into a copy of the
    receiver; the directory of the file becomes the root only when the
    decoding succeeded. *)
Definition LoadConfig (t : ConfigClient float64) (path : string)
  : ConfigClient float64 * option error :=
  let decoded := ExpandAndDecodeFile path t in
  match decoded.2 with
  | Some err => (decoded.1, Some err)
  | None => (set_root decoded.1 (filepath.Dir path), None)
  end.

(** [ConfigClient.Dir]: the path to the configuration on disk. *)
Definition Dir (t : ConfigClient float64) : string := root t.

(** [ConfigClient.WorkDir]. *)
Definition WorkDir (t : ConfigClient float64) : string :=
  filepath.Dir (filepath.Dir (Dir t)).

(** [ConfigClient.Deployspace]. *)
Definition Deployspace (t : ConfigClient float64) : string :=
  let cdir := DataDir (Deployment t) in
  if negb (filepath.IsAbs cdir)
  then filepath.Join [WorkDir t; DataDir (Deployment t)]
  else cdir.

End Functions.

End client.

(* ===================================================================== *)
(** * Package cmdopts: decoding addresses from the command line *)
(* ===================================================================== *)

Module parse.
Import agent.

(** [net.ParseIP]: the address a text denotes, or nil for a text that is
    no IP address. *)
Class Package : Type := {
  net_ParseIP : string -> option bytes
}.

(** What is stored in the target of a decoder. *)
Inductive value : Type :=
| ValueIP (ip : option bytes)
| ValueTCPAddr (addr : option TCPAddr)
| ValueTCPAddrs (addrs : list (option TCPAddr)).

(** The calls of the decoders: [ctx.Scan.Len()], [ctx.Scan.Pop().String()],
    [net.ResolveTCPAddr(network, address)], [spew.Sdump(ctx)] and
    [target.Set(reflect.ValueOf(v))]. *)
Inductive call : Type -> Type :=
| Scan_Len : call Z
| Scan_Pop : call string
| ResolveTCPAddr (network address : string)
    : call (option TCPAddr * option error)
| Sdump_ctx : call string
| target_Set (v : value) : call unit.

(** What [errors.Wrapf(err, format, args...)] returns for an error: the
    error under the formatted message. *)
Inductive wrapped : Type :=
| Wrapf (cause : error) (message : string).

(** The line feed, the text of the literal with a backslash and [n]. *)
Definition newline : string := String "010"%char "".

Local Open Scope prog_scope.

Section Functions.
Context `{Package}.

(** [func ParseIP(ctx, target) (err error)]. *)
Definition ParseIP : prog call (option wrapped) :=
  s <- invoke Scan_Pop ;;
  _ <- invoke (target_Set (ValueIP (net_ParseIP s))) ;;
  Ret None.

(** [func ParseTCPAddr(ctx, target) (err error)]. *)
Definition ParseTCPAddr : prog call (option wrapped) :=
  n <- invoke Scan_Len ;;
  if (n =? 0)%Z then Ret None
  else
    saddr <- invoke Scan_Pop ;;
    r <- invoke (ResolveTCPAddr "tcp" saddr) ;;
    match r.2 with
    | Some err =>
        dump <- invoke Sdump_ctx ;;
        Ret (Some (Wrapf err
                     ("unable to resolve tcp address " ++ saddr ++ " - " ++ dump)))
    | None =>
        _ <- invoke (target_Set (ValueTCPAddr r.1)) ;;
        Ret None
    end.

(** The loop of [ParseTCPAddrArray] over the pieces of the token: it ends
    with the results, or returns from the function at the first address
    that does not resolve. *)
Fixpoint resolve_each (token : string) (pieces : list string)
    (results : list (option TCPAddr))
  : prog call (list (option TCPAddr) + wrapped) :=
  match pieces with
  | [] => Ret (inl results)
  | saddr :: rest =>
      r <- invoke (ResolveTCPAddr "tcp" saddr) ;;
      match r.2 with
      | Some err =>
          Ret (inr (Wrapf err
                      ("unable to resolve tcp address " ++ saddr ++ " : " ++ token)))
      | None => resolve_each token rest (results ++ [r.1])
      end
  end.

(** The token with every line feed and every comma replaced by a space. *)
Definition spaced (token : string) : string :=
  let token := strings.ReplaceAll token newline " " in
  strings.ReplaceAll token "," " ".

(** [func ParseTCPAddrArray(ctx, target) (err error)]. *)
Definition ParseTCPAddrArray : prog call (option wrapped) :=
  n <- invoke Scan_Len ;;
  if (n =? 0)%Z then Ret None
  else
    token <- invoke Scan_Pop ;;
    let token := spaced token in
    r <- resolve_each token (strings.Split token " ") [] ;;
    match r with
    | inr err => Ret (Some err)
    | inl results =>
        _ <- invoke (target_Set (ValueTCPAddrs results)) ;;
        Ret None
    end.

End Functions.

(** ** Reading a trace of a decoder *)

(** The calls of a loop that handed the addresses of [answers] to
    [net.ResolveTCPAddr], each with the answer it got. *)
Definition resolved (answers : list (string * (option TCPAddr * option error)))
  : list (event call) :=
  map (fun a => Event (ResolveTCPAddr "tcp" a.1) a.2) answers.

(** An address that resolved. *)
Definition succeeded (a : string * (option TCPAddr * option error)) : Prop :=
  a.2.2 = None.

(** The bytes at which [ParseTCPAddrArray] splits its token. *)
Definition is_separator (c : ascii) : bool :=
  Ascii.eqb c "010" || Ascii.eqb c "," || Ascii.eqb c " ".

End parse.

(* ===================================================================== *)
(** * Scenarios for the options, the client and the decoders *)
(* ===================================================================== *)

Module scenario.
Import agent.

(** Dotted decimal text of the bytes of an address. *)
Definition dotted (ip : bytes) : string :=
  String.concat "." (map (fun b => pretty (Byte.to_N b)) ip).

(** A package: port 2000, credentials under [tls], and a [newTLSAgent] that
    leaves the configuration as it is. *)
Definition agent_package : config.Package :=
  {| config.DefaultP2PPort := 2000;
     config.DefaultDirAgentCredentials := "tls";
     config.DefaultTLSCertCA := "tlsca.cert";
     config.DefaultEnvironmentName := "default";
     config.DefaultCacheDirectory := "/var/cache/bearded-wookie";
     config.HostnameOrLocalhost := "node1";
     config.newTLSAgent := fun name c => c;
     config.IP_String := dotted |}.

(** A configuration file that decodes to a relative deployment directory,
    and a file that does not decode; concurrency is a count. *)
Definition client_package : @client.Package Z :=
  {| client.DefaultDeployTimeout := 3600 * 10 ^ 9;
     client.DefaultDeployspaceDir := ".deployspace";
     client.DefaultEnvironmentName := "default";
     client.DefaultP2PPort := 2000;
     client.HostnameOrLocalhost := "node1";
     client.zero_float64 := 0%Z;
     client.ConfigClientTLS := fun name c => client.set_Environment c name;
     client.ExpandAndDecodeFile := fun path c =>
       if String.eqb path "/etc/bw/broken.yml"
       then (c, Some (errorString "yaml: did not find expected key"))
       else (client.set_Deployment c
               (client.mkDeployment "deploys" 60 "" ""), None) |}.

Definition parse_package : parse.Package :=
  {| parse.net_ParseIP := fun s =>
       if String.eqb s "10.0.0.1" then Some [x0a; x00; x00; x01] else None |}.

(** A command line: the tokens not yet read, and what the target holds.
    An address resolves unless it is the text [nowhere]; the resolved
    address carries the text in its zone. *)
Record line : Type := mkLine {
  tokens : list string;
  target : list parse.value
}.

Definition scan : handler parse.call line :=
  fun X c =>
    match c in parse.call X return line -> X * line with
    | parse.Scan_Len => fun w => (Z.of_nat (length (tokens w)), w)
    | parse.Scan_Pop => fun w =>
        (hd ""%string (tokens w), mkLine (tl (tokens w)) (target w))
    | parse.ResolveTCPAddr network address => fun w =>
        if String.eqb address "nowhere"
        then ((None, Some (errorString "lookup nowhere: no such host")), w)
        else ((Some (mkTCPAddr [] 0 address), None), w)
    | parse.Sdump_ctx => fun w => ("kong.DecodeContext"%string, w)
    | parse.target_Set v => fun w => (tt, mkLine (tokens w) (target w ++ [v]))
    end.

End scenario.

(* ===================================================================== *)
(** * Proof automation *)
(* ===================================================================== *)

(** Runs the passive-reset callback symbolically: one case for each way the
    environment [h] can answer its calls. *)
Ltac reset_cases h dir w :=
  unfold trace, outcome_of, cmdopts.passive_reset; simpl;
  destruct (h _ (cmdopts.RemoveAll dir) w) as [[?|] ?];
  (destruct (h _ (cmdopts.MkdirAll dir cmdopts.perm_0700) _) as [[?|] ?]); simpl;
  try (destruct (h _ (cmdopts.RaftStoreFilepath _) _) as [[? [?|]] ?]; simpl);
  try (destruct (h _ (cmdopts.NewFileSnapshotStore dir 5) _) as [[? [?|]] ?]; simpl).

(* ===================================================================== *)
(** * Properties of the checksum *)
(* ===================================================================== *)

Example Sum256_abc :
  hex (sha256.Sum256 (bytes_of_string "abc")) =
  "ba7816bf8f01cfea414140de5dae2223b00361a396177a9cb410ff61f20015ad".
Proof. vm_compute. reflexivity. Qed.

Example Sum256_empty :
  hex (sha256.Sum256 []) =
  "e3b0c44298fc1c149afbf4c8996fb92427ae41e4649b934ca495991b7852b855".
Proof. vm_compute. reflexivity. Qed.

(** Two blocks: a message of fifty-six bytes no longer fits one block with
    its padding. *)
Example Sum256_two_blocks :
  hex (sha256.Sum256 (bytes_of_string
         "abcdbcdecdefdefgefghfghighijhijkijkljklmklmnlmnomnopnopq")) =
  "248d6a61d20638b8e5c026930c3e6039a33ce45964ff2167f6ecedd419db06c1".
Proof. vm_compute. reflexivity. Qed.

Example K_first_and_last :
  nth 0 sha256._K 0%Z = 0x428a2f98%Z /\ nth 63 sha256._K 0%Z = 0xc67178f2%Z.
Proof. split; reflexivity. Qed.

Lemma be_bytes_length (n : nat) (x : Z) : length (sha256.be_bytes n x) = n.
Proof. induction n as [|n IH]; simpl; [reflexivity | now rewrite IH]. Qed.

(** A checksum is thirty-two bytes, whatever the data. *)
Lemma Sum256_length (data : bytes) :
  length (sha256.Sum256 data) = sha256.Size.
Proof.
  unfold sha256.Sum256.
  destruct (sha256.block _ _ _) as [a b c d e f g h].
  rewrite !length_app. unfold sha256.be32_bytes.
  rewrite !be_bytes_length. reflexivity.
Qed.

(* ===================================================================== *)
(** * Properties of package agent *)
(* ===================================================================== *)

Section AgentProperties.
Import agent.

(** The digest of a token, as [Keyring] computes it. *)
Local Abbreviation digest_of token := (sha256.Sum256 (bytes_of_string token)).

Lemma hash_tokens_from (acc : list bytes) (cluster_tokens : list string) :
  fold_left
    (fun tokens token => tokens ++ [digest_of token]) cluster_tokens acc
  = acc ++ map (fun token => digest_of token) cluster_tokens.
Proof.
  revert acc. induction cluster_tokens as [|token rest IH]; intros acc; simpl.
  - now rewrite app_nil_r.
  - rewrite IH, <- app_assoc. reflexivity.
Qed.

(** The loop hashes every token, and keeps the order of the tokens. *)
Lemma hash_tokens_map (cluster_tokens : list string) :
  hash_tokens cluster_tokens = map (fun token => digest_of token) cluster_tokens.
Proof. unfold hash_tokens. now rewrite hash_tokens_from. Qed.

Lemma hash_tokens_length (cluster_tokens : list string) :
  length (hash_tokens cluster_tokens) = length cluster_tokens.
Proof. rewrite hash_tokens_map. apply length_map. Qed.

(** [Keyring] by cases on the tokens, for any gossip library. *)
Lemma Keyring_cases `{Gossip} (t : Config) :
  Keyring t =
  match elems (ClusterTokens t) with
  | [] => NewKeyring [] (digest_of (ServerName t))
  | first :: rest =>
      NewKeyring (map (fun token => digest_of token) rest) (digest_of first)
  end.
Proof.
  unfold Keyring. rewrite hash_tokens_map.
  destruct (elems (ClusterTokens t)) as [|first [|second rest]]; reflexivity.
Qed.

(** What [Keyring] hands to the recorder is what it hands to any gossip
    library. *)
Lemma Keyring_passes_spec `{Gossip} (t : Config) :
  Keyring t = NewKeyring (Keyring_passes t).1 (Keyring_passes t).2.
Proof.
  unfold Keyring_passes. rewrite !Keyring_cases.
  destruct (elems (ClusterTokens t)); reflexivity.
Qed.

(** C2: with more than one cluster token, the keyring is built with the
    SHA-256 digest of the first token as its primary key, 256 bits long, and
    the digests of the remaining tokens, in their order, as its legacy keys;
    there is one legacy key less than there are tokens. *)
Theorem Keyring_rotation `{Gossip} (t : Config) :
  let tokens := elems (ClusterTokens t) in
  1 < length tokens ->
  Keyring t =
    NewKeyring (map (fun token => digest_of token) (drop 1 tokens))
               (digest_of (hd ""%string tokens))
  /\ Keyring_passes t =
       (map (fun token => digest_of token) (drop 1 tokens),
        digest_of (hd ""%string tokens))
  /\ length (Keyring_passes t).1 = length tokens - 1
  /\ length (Keyring_passes t).2 = sha256.Size.
Proof.
  intros tokens Hn. unfold Keyring_passes. rewrite !Keyring_cases.
  fold tokens. destruct tokens as [|first rest]; simpl in *; [lia|].
  repeat split.
  - rewrite length_map. lia.
  - apply Sum256_length.
Qed.

(** The scenario of the rotation: tokens "new" and "old". *)
Lemma Keyring_rotation_new_old :
  1 < length (elems (ClusterTokens sim.config))
  /\ Keyring_passes sim.config = ([digest_of "old"], digest_of "new")
  /\ length (Keyring_passes sim.config).1 = 1.
Proof.
  split; [simpl; lia|].
  destruct (@Keyring_rotation recording sim.config) as (_ & Hp & Hl & _);
    [simpl; lia|].
  split; [exact Hp | exact Hl].
Defined.

(** The keys of the scenario, in hexadecimal. *)
Example Keyring_new_old_hex :
  hex (Keyring_passes sim.config).2
  = "11507a0e2f5e69d5dfa40a62a1bd7b6ee57e6bcd85c67c9b8431b36fff21c437"
  /\ length (Keyring_passes sim.config).1 = 1.
Proof. split; vm_compute; reflexivity. Qed.

(** C3: with no cluster token, [Keyring] has no failure of its own: it
    builds the keyring from the digest of the server name as the primary key
    and no legacy key, a key of thirty-two bytes; it returns no error when
    the gossip library accepts a lone key of that length. *)
Theorem Keyring_without_tokens `{Gossip} (t : Config) :
  elems (ClusterTokens t) = [] ->
  (forall key : bytes,
      length key = sha256.Size -> (NewKeyring [] key).2 = None) ->
  Keyring t = NewKeyring [] (digest_of (ServerName t))
  /\ Keyring_passes t = ([], digest_of (ServerName t))
  /\ length (Keyring_passes t).2 = sha256.Size
  /\ (Keyring t).2 = None.
Proof.
  intros Hnone Haccepts. unfold Keyring_passes. rewrite !Keyring_cases, Hnone.
  repeat split.
  - apply Sum256_length.
  - apply Haccepts, Sum256_length.
Qed.

(** The scenario without tokens: server name "prod-cluster". *)
Lemma Keyring_without_tokens_prod_cluster :
  Keyring_passes sim.config_no_tokens = ([], digest_of "prod-cluster")
  /\ (@Keyring sim.gossip sim.config_no_tokens).2 = None.
Proof.
  destruct (@Keyring_without_tokens sim.gossip sim.config_no_tokens)
    as (_ & Hp & _ & Hok).
  - reflexivity.
  - intros key Hkey. simpl. unfold sim.valid_key. rewrite Hkey. reflexivity.
  - split; [exact Hp | exact Hok].
Defined.

(** X1: with exactly one cluster token, the keyring is built with the
    digest of that token as its primary key and no legacy key. *)
Theorem Keyring_single_token `{Gossip} (t : Config) (token : string) :
  elems (ClusterTokens t) = [token] ->
  Keyring t = NewKeyring [] (digest_of token)
  /\ Keyring_passes t = ([], digest_of token).
Proof.
  intros Hone. unfold Keyring_passes. rewrite !Keyring_cases, Hone.
  split; reflexivity.
Qed.

Lemma Keyring_single_token_only :
  Keyring_passes sim.config_single_node = ([], digest_of "only").
Proof.
  exact (proj2 (@Keyring_single_token recording sim.config_single_node "only"
                  eq_refl)).
Defined.

Lemma Keyring_passes_derived (t : Config) :
  Forall (derived_key t) ((Keyring_passes t).2 :: (Keyring_passes t).1).
Proof.
  unfold Keyring_passes. rewrite Keyring_cases.
  destruct (elems (ClusterTokens t)) as [|first rest] eqn:Htokens; simpl.
  - repeat constructor. exists (ServerName t). now split; [right|].
  - constructor.
    + exists first. split; [left; rewrite Htokens; left | reflexivity].
    + apply Forall_forall. intros key Hkey.
      apply list_elem_of_fmap in Hkey as (token & -> & Htoken).
      exists token. split; [left; rewrite Htokens; now right | reflexivity].
Qed.

(** The keys handed over are a function of the digests alone: the digests
    of the tokens, in order, and the digest of the server name. *)
Lemma Keyring_passes_from_digests (t : Config) :
  Keyring_passes t =
  match map (fun token => digest_of token) (elems (ClusterTokens t)) with
  | [] => ([], digest_of (ServerName t))
  | first :: rest => (rest, first)
  end.
Proof.
  unfold Keyring_passes. rewrite Keyring_cases.
  destruct (elems (ClusterTokens t)); reflexivity.
Qed.

(** C8: every key [Keyring] passes to the keyring constructor of the gossip
    layer, primary or legacy, is the SHA-256 digest of a cluster token or of
    the server name, thirty-two bytes long; a token is not passed as it is
    (a token of another length than thirty-two bytes is no key at all), and
    what is passed depends on the tokens and the server name through their
    digests only. *)
Theorem Keyring_passes_digests_only (t : Config) :
  (forall G : Gossip,
      @Keyring G t = @NewKeyring G (Keyring_passes t).1 (Keyring_passes t).2)
  /\ Forall (fun key => derived_key t key /\ length key = sha256.Size)
            ((Keyring_passes t).2 :: (Keyring_passes t).1)
  /\ (forall token : string,
        token ∈ elems (ClusterTokens t) ->
        length (bytes_of_string token) <> sha256.Size ->
        bytes_of_string token ∉ (Keyring_passes t).2 :: (Keyring_passes t).1)
  /\ (forall t' : Config,
        map (fun token => digest_of token) (elems (ClusterTokens t'))
        = map (fun token => digest_of token) (elems (ClusterTokens t)) ->
        digest_of (ServerName t') = digest_of (ServerName t) ->
        Keyring_passes t' = Keyring_passes t).
Proof.
  assert (Hkeys : Forall (fun key => derived_key t key /\ length key = sha256.Size)
                         ((Keyring_passes t).2 :: (Keyring_passes t).1)).
  { eapply Forall_impl; [apply Keyring_passes_derived|].
    intros key Hkey. split; [exact Hkey|].
    destruct Hkey as (s & _ & ->). apply Sum256_length. }
  split; [intros G; apply Keyring_passes_spec|].
  split; [exact Hkeys|].
  split.
  - intros token _ Hlen Hin.
    rewrite Forall_forall in Hkeys. apply Hkeys in Hin as [_ Hsize]. congruence.
  - intros t' Htokens Hname.
    rewrite !Keyring_passes_from_digests, Htokens, Hname. reflexivity.
Qed.

(** C10: [Sanitize] returns a copy of the configuration whose cluster
    tokens are the empty slice and whose other fields are those of the
    receiver; the body assigns to its local copy only, the receiver is as
    it was. *)
Theorem Sanitize_clears_tokens_only (c : Config) :
  ClusterTokens (Sanitize c) = Some []
  /\ (Name (Sanitize c) = Name c
      /\ Root (Sanitize c) = Root c
      /\ KeepN (Sanitize c) = KeepN c
      /\ MinimumNodes (Sanitize c) = MinimumNodes c
      /\ Bootstrap (Sanitize c) = Bootstrap c
      /\ SnapshotFrequency (Sanitize c) = SnapshotFrequency c
      /\ P2PBind (Sanitize c) = P2PBind c
      /\ P2PAdvertised (Sanitize c) = P2PAdvertised c
      /\ AlternateBinds (Sanitize c) = AlternateBinds c
      /\ ServerName (Sanitize c) = ServerName c
      /\ CA (Sanitize c) = CA c
      /\ CredentialsMode (Sanitize c) = CredentialsMode c
      /\ CredentialsDir (Sanitize c) = CredentialsDir c
      /\ Credentials (Sanitize c) = Credentials c
      /\ DNSBind (Sanitize c) = DNSBind c
      /\ DNSBootstrap (Sanitize c) = DNSBootstrap c
      /\ AWSBootstrap (Sanitize c) = AWSBootstrap c)
  /\ set_ClusterTokens (Sanitize c) (ClusterTokens c) = c
  /\ var_t (Sanitize_body c) = c.
Proof. destruct c. repeat split. Qed.

End AgentProperties.

(* ===================================================================== *)
(** * Properties of running a program *)
(* ===================================================================== *)

Section RunProperties.
Context {C : Type -> Type} {W : Type} (h : handler C W).

(** Running [p] and then [f]: the calls of [p], then those of [f] from the
    world [p] left; a panic of [p] ends the run. *)
Lemma run_bind {A B : Type} (p : prog C A) (f : A -> prog C B) (w : W) :
  run h (bind p f) w =
  match run h p w with
  | (Returned a, w1, tr1) =>
      let '(r, w2, tr2) := run h (f a) w1 in (r, w2, tr1 ++ tr2)
  | (Panicked, w1, tr1) => (Panicked, w1, tr1)
  end.
Proof.
  revert w. induction p as [a| |X c k IH]; intros w; simpl.
  - destruct (run h (f a) w) as [[r w2] tr2]. reflexivity.
  - reflexivity.
  - destruct (h X c w) as [x w1]. rewrite IH.
    destruct (run h (k x) w1) as [[[a|] w2] tr1]; [|reflexivity].
    destruct (run h (f a) w2) as [[r w3] tr2]. reflexivity.
Qed.

Lemma run_invoke {X : Type} (c : C X) (w : W) :
  run h (invoke c) w = (Returned (h X c w).1, (h X c w).2, [Event c (h X c w).1]).
Proof. simpl. destruct (h X c w) as [x w1]. reflexivity. Qed.

End RunProperties.

(* ===================================================================== *)
(** * Properties of the consensus initializer *)
(* ===================================================================== *)

Section RaftProperties.
Import agent cmdopts.
Context `{Handles} `{Lib}.

(** The calls of the callback are an initial part of its plan. *)
Lemma passive_reset_follows_plan {W : Type} (h : handler fsCall W)
    (dir : string) (w : W) :
  let st := steps (trace h (passive_reset dir) w) in
  map fst st = take (length st) (reset_plan dir).
Proof. reset_cases h dir w; reflexivity. Qed.

(** C6: the passive-reset callback makes its calls in the order remove,
    recreate, log store, snapshot store, and makes at least the first two;
    the error it returns is the error of the first step that failed, under
    the stack annotation of the return taken, which tells a failed remove or
    recreate from a failed log store from a failed snapshot store; it stops
    after the recreate step when the remove or the recreate step failed, and
    after a store construction that failed. *)
Theorem passive_reset_ordered {W : Type} (h : handler fsCall W)
    (dir : string) (w : W) :
  let st := steps (trace h (passive_reset dir) w) in
  exists (s : Storage) (ss : SnapshotStore) (err : option error),
    outcome_of h (passive_reset dir) w = Returned (s, ss, err)
    /\ map fst st = take (length st) (reset_plan dir)
    /\ err = surfaced (failed_step st)
    /\ length st =
         match failed_step st with
         | Some (OpRemoveAll _, _) | Some (OpMkdirAll _ _, _) => 2
         | Some (OpRaftStoreFilepath _, _) => 3
         | Some (OpNewFileSnapshotStore _ _, _) => 4
         | None => 4
         end.
Proof.
  reset_cases h dir w; eexists _, _, _; repeat split; reflexivity.
Qed.

(** A passive reset that returns no error made all four calls, none of
    which failed, and returns the two stores the constructors answered
    with. *)
Lemma passive_reset_success {W : Type} (h : handler fsCall W)
    (dir : string) (w w' : W) (s : Storage) (ss : SnapshotStore)
    (tr : list (event fsCall)) :
  run h (passive_reset dir) w = (Returned (s, ss, None), w', tr) ->
  exists w1 w2 w3 : W,
    h _ (RemoveAll dir) w = (None, w1)
    /\ h _ (MkdirAll dir perm_0700) w1 = (None, w2)
    /\ h _ (RaftStoreFilepath (filepath_Join [dir; "state.bin"])) w2
         = ((s, None), w3)
    /\ h _ (NewFileSnapshotStore dir 5) w3 = ((ss, None), w')
    /\ tr = [ Event (RemoveAll dir) None;
              Event (MkdirAll dir perm_0700) None;
              Event (RaftStoreFilepath (filepath_Join [dir; "state.bin"])) (s, None);
              Event (NewFileSnapshotStore dir 5) (ss, None) ].
Proof.
  unfold passive_reset. simpl.
  destruct (h _ (RemoveAll dir) w) as [rm w1] eqn:Hrm.
  destruct (h _ (MkdirAll dir perm_0700) w1) as [mk w2] eqn:Hmk.
  destruct rm as [e|]; simpl; [discriminate|].
  destruct mk as [e|]; simpl; [discriminate|].
  destruct (h _ (RaftStoreFilepath _) w2) as [[s' [e|]] w3] eqn:Hs; simpl;
    [discriminate|].
  destruct (h _ (NewFileSnapshotStore dir 5) w3) as [[ss' [e|]] w4] eqn:Hss;
    simpl; [discriminate|].
  intros [= -> -> -> <-]. exists w1, w2, w3. repeat split; assumption.
Qed.

(** C7: the callback constructs a snapshot store over the consensus
    storage directory only, and with a retain count of five; the snapshot
    store of a reset that succeeded is the one so constructed. *)
Theorem passive_reset_retains_five {W : Type} (h : handler fsCall W)
    (dir : string) (w : W) :
  (forall (base : string) (retain : Z),
      OpNewFileSnapshotStore base retain
        ∈ map fst (steps (trace h (passive_reset dir) w)) ->
      base = dir /\ retain = 5%Z)
  /\ (forall (s : Storage) (ss : SnapshotStore),
        outcome_of h (passive_reset dir) w = Returned (s, ss, None) ->
        exists w3 : W,
          (h _ (NewFileSnapshotStore dir 5) w3).1 = (ss, None)
          /\ OpNewFileSnapshotStore dir 5
               ∈ map fst (steps (trace h (passive_reset dir) w))).
Proof.
  split.
  - intros base retain Hin.
    rewrite (passive_reset_follows_plan h dir w) in Hin.
    apply subseteq_take in Hin. unfold reset_plan in Hin.
    set_unfold in Hin.
    destruct Hin as [Hop|[Hop|[Hop|[Hop|[]]]]]; try discriminate Hop.
    injection Hop as -> ->. split; reflexivity.
  - intros s ss Hout. unfold outcome_of, trace in *.
    destruct (run h (passive_reset dir) w) as [[r w'] tr] eqn:Hrun.
    simpl in Hout. subst r.
    apply passive_reset_success in Hrun
      as (w1 & w2 & w3 & _ & _ & _ & Hss & ->).
    exists w3. rewrite Hss. split; [reflexivity|].
    simpl. set_solver.
Qed.

(** C4: [Raft] first makes the storage directory [raft.d] under the root,
    with [os.MkdirAll], which leaves an existing directory as it is. When
    that fails it returns the error and starts nothing. Otherwise it starts
    the protocol once, with the options: the quorum minimum
    [conf.MinimumNodes], single-node mode switched on exactly when
    [conf.MinimumNodes <= 1], the passive-reset callback over the
    directory, then the options of the caller. *)
Theorem Raft_starts_protocol {W : Type} (h : handler call W)
    (t : Peering) (ctx : Context_) (conf : Config) (node : Node)
    (eq : ClientConn) (options : list ProtocolOption) (w : W) :
  let dir := filepath_Join [Root conf; "raft.d"] in
  let mkdir := FS (MkdirAll dir perm_0700) in
  match h _ mkdir w with
  | (Some err, w1) =>
      run h (Raft t ctx conf node eq options) w
      = (Returned (zeroProtocol, Some err), w1, [Event mkdir (Some err)])
  | (None, w1) =>
      exists single : bool,
        (single = true <-> (MinimumNodes conf <= 1)%Z)
        /\ let start :=
             NewProtocol ctx node eq
               ([ ProtocolOptionQuorumMinimum (MinimumNodes conf);
                  ProtocolOptionEnableSingleNode single;
                  ProtocolOptionPassiveReset (passive_reset dir) ] ++ options) in
           run h (Raft t ctx conf node eq options) w
           = (Returned (h _ start w1).1, (h _ start w1).2,
              [Event mkdir None; Event start (h _ start w1).1])
  end.
Proof.
  intros dir mkdir. unfold Raft. fold dir. simpl. fold mkdir.
  destruct (h _ mkdir w) as [[err|] w1]; simpl; [reflexivity|].
  exists (MinimumNodes conf <=? 1)%Z. split; [apply Z.leb_le|].
  simpl.
  destruct (h _ (NewProtocol _ _ _ _) w1) as [answer w2]. reflexivity.
Qed.

(** C9: in an environment where the reset is confined to the storage
    directory, a reset that succeeded is idempotent: invoked again in the
    world it left, where the directory can be removed again, it makes the
    same calls with the same answers, returns the same two stores and
    leaves the same world. *)
Theorem passive_reset_idempotent {W : Type} (h : handler fsCall W)
    (dir : string) (agree : W -> W -> Prop) (w w' : W)
    (s : Storage) (ss : SnapshotStore) (tr : list (event fsCall)) :
  confined h dir agree ->
  run h (passive_reset dir) w = (Returned (s, ss, None), w', tr) ->
  (h _ (RemoveAll dir) w').1 = None ->
  run h (passive_reset dir) w' = (Returned (s, ss, None), w', tr).
Proof.
  intros Hconf Hrun Hagain.
  apply passive_reset_success in Hrun
    as (w1 & w2 & w3 & Hrm & Hmk & Hs & Hss & ->).
  assert (Hagree : agree w2 w').
  { eapply (agree_trans _ _ _ Hconf) with w3.
    - generalize (log_store_confined _ _ _ Hconf w2). now rewrite Hs.
    - generalize (snapshot_store_confined _ _ _ Hconf w3). now rewrite Hss. }
  destruct (h _ (RemoveAll dir) w') as [rm u1] eqn:Hrm'.
  simpl in Hagain. subst rm.
  pose proof (wipe_restores _ _ _ Hconf _ _ _ _ _ Hrm Hmk Hagree Hrm') as Hmk'.
  unfold passive_reset. simpl. rewrite Hrm', Hmk'. simpl.
  rewrite Hs. simpl. rewrite Hss. reflexivity.
Qed.

End RaftProperties.

(* ===================================================================== *)
(** * The reference environment confines the reset *)
(* ===================================================================== *)

Section ReferenceEnvironment.
Import agent cmdopts.
#[local] Existing Instance sim.handles.
#[local] Existing Instance sim.lib.

Lemma prefix_app (a b : string) : String.prefix a (a ++ b) = true.
Proof.
  induction a as [|ch a IH]; simpl.
  - now destruct b.
  - destruct (Ascii.ascii_dec ch ch); [exact IH | congruence].
Qed.

Lemma prefix_app_app (a b c : string) :
  String.prefix (a ++ b) (a ++ b ++ c) = true.
Proof.
  induction a as [|ch a IH].
  - exact (prefix_app b c).
  - simpl. destruct (Ascii.ascii_dec ch ch); [exact IH | congruence].
Qed.

Lemma under_self (dir : string) : sim.under dir dir = true.
Proof. unfold sim.under. now rewrite bool_decide_eq_true_2. Qed.

Lemma under_below (dir name : string) :
  sim.under dir (dir ++ "/" ++ name) = true.
Proof.
  unfold sim.under. rewrite prefix_app_app. apply orb_true_r.
Qed.

Lemma lookup_removed (dir p : string) (v : gmap string sim.node) :
  filter (fun pn => sim.under dir pn.1 = false) v !! p
  = if sim.under dir p then None else v !! p.
Proof.
  rewrite map_lookup_filter. simpl.
  destruct (v !! p) as [n|]; simpl.
  - destruct (sim.under dir p); [rewrite option_guard_False | rewrite option_guard_True];
      simpl; congruence.
  - now destruct (sim.under dir p).
Qed.

Lemma RemoveAll_ok (dir : string) (v v1 : gmap string sim.node) :
  sim.fs_handler _ (RemoveAll dir) v = (None, v1) ->
  v1 = filter (fun pn => sim.under dir pn.1 = false) v.
Proof.
  simpl. destruct (sim.removable dir v); [|discriminate].
  now intros [= <-].
Qed.

Lemma MkdirAll_fresh (dir : string) (perm : Z) (v : gmap string sim.node) :
  v !! dir = None ->
  sim.fs_handler _ (MkdirAll dir perm) v = (None, <[dir := sim.Dir]> v).
Proof. intros Hnone. simpl. now rewrite Hnone. Qed.

Lemma agree_outside_insert (dir p : string) (n : sim.node)
    (v : gmap string sim.node) :
  sim.under dir p = true -> sim.agree_outside dir v (<[p := n]> v).
Proof.
  intros Hp q Hq. rewrite lookup_insert_ne; [reflexivity|]. congruence.
Qed.

Lemma agree_outside_refl (dir : string) (v : gmap string sim.node) :
  sim.agree_outside dir v v.
Proof. intros p _. reflexivity. Qed.

(** The reference file system confines the reset to the directory. *)
Lemma fs_handler_confined (dir : string) :
  confined sim.fs_handler dir (sim.agree_outside dir).
Proof.
  split.
  - intros a b c Hab Hbc p Hp. now rewrite (Hab p Hp), (Hbc p Hp).
  - intros v. simpl.
    destruct (v !! (dir ++ "/" ++ "state.bin")%string) as [[]|]; simpl;
      try apply agree_outside_refl.
    apply agree_outside_insert, under_below.
  - intros v. simpl.
    destruct (v !! dir) as [[]|]; simpl; try apply agree_outside_refl.
    apply agree_outside_insert, (under_below dir "snapshots").
  - intros v0 v1 v2 u u1 Hrm Hmk Hagree Hrm'.
    apply RemoveAll_ok in Hrm, Hrm'.
    assert (Hfresh : v1 !! dir = None).
    { subst v1. now rewrite lookup_removed, under_self. }
    rewrite (MkdirAll_fresh _ _ _ Hfresh) in Hmk. injection Hmk as <-.
    assert (Hsame : u1 = v1).
    { apply map_eq. intros p. subst u1 v1. rewrite !lookup_removed.
      destruct (sim.under dir p) eqn:Hp; [reflexivity|].
      rewrite <- (Hagree p Hp).
      rewrite lookup_insert_ne, lookup_removed, Hp; [reflexivity|].
      intros <-. now rewrite under_self in Hp. }
    rewrite Hsame. now apply MkdirAll_fresh.
Qed.

(** A reset of a used storage directory, then a second one: the second
    returns the same stores, leaves the same file system and makes the same
    calls as the first. *)
Lemma passive_reset_twice_on_used_directory :
  let dir := "/var/cache/bw/raft.d"%string in
  let once := run sim.fs_handler (passive_reset dir) sim.used_files in
  once.1.1 = Returned ((dir ++ "/state.bin")%string, (dir, 5%Z), None)
  /\ run sim.fs_handler (passive_reset dir) once.1.2 = once.
Proof.
  intros dir once.
  assert (Honce : once = (Returned ((dir ++ "/state.bin")%string, (dir, 5%Z), None),
                          once.1.2, once.2)) by (vm_compute; reflexivity).
  split; [now rewrite Honce|].
  rewrite Honce at 2.
  apply (passive_reset_idempotent sim.fs_handler dir (sim.agree_outside dir)
           sim.used_files).
  - apply fs_handler_confined.
  - exact Honce.
  - vm_compute. reflexivity.
Defined.

(** A node of the storage directory cannot be unlinked: the remove step
    fails, the recreate step still runs, no store is constructed, and the
    error returned is the one of the remove step. *)
Example passive_reset_busy_directory :
  let busy := PathError "unlinkat" "/d" "device or resource busy" in
  let files : gmap string sim.node := {[ "/d/x"%string := sim.Busy ]} in
  outcome_of sim.fs_handler (passive_reset "/d") files
  = Returned (nilStorage, nilSnapshotStore, Some (withStack 451 busy))
  /\ steps (trace sim.fs_handler (passive_reset "/d") files)
     = [ (OpRemoveAll "/d", Some busy); (OpMkdirAll "/d" perm_0700, None) ].
Proof. split; vm_compute; reflexivity. Qed.

(** The path of the log store names a directory left behind: the remove
    step clears it before the log store is constructed, and the reset
    succeeds. *)
Example passive_reset_clears_first :
  let files : gmap string sim.node :=
    {[ "/d"%string := sim.Dir; "/d/state.bin"%string := sim.Dir ]} in
  outcome_of sim.fs_handler (passive_reset "/d") files
  = Returned ("/d/state.bin"%string, ("/d"%string, 5%Z), None).
Proof. vm_compute. reflexivity. Qed.

(** A cluster of one node: [Raft] makes [raft.d], then starts the protocol
    with a quorum minimum of one and single-node mode switched on. *)
Example Raft_single_node :
  exists reset : prog fsCall ResetResult,
    trace sim.env (Raft sim.peering tt sim.config_single_node "node1"%string tt [])
          sim.healthy
    = [ Event (FS (MkdirAll "/var/cache/bw/raft.d" perm_0700)) None;
        Event (NewProtocol tt "node1"%string tt
                 [ ProtocolOptionQuorumMinimum 1;
                   ProtocolOptionEnableSingleNode true;
                   ProtocolOptionPassiveReset reset ])
              (true, None) ].
Proof. eexists. vm_compute. reflexivity. Qed.

End ReferenceEnvironment.

(* ===================================================================== *)
(** * Properties of the cluster joiner *)
(* ===================================================================== *)

Section JoinProperties.
Import agent cmdopts.
Context `{Handles} `{Lib} {W : Type} (h : handler call W).

(** [p2ppeering] returns only when the bind address is set: it reads the
    port through the pointer before anything else. *)
Lemma p2ppeering_returned (config : Config) (w w1 : W)
    (r : Source * option error) (tr1 : list (event call)) :
  run h (p2ppeering config) w = (Returned r, w1, tr1) ->
  exists a : TCPAddr, P2PBind config = Some a.
Proof.
  unfold p2ppeering. destruct (P2PBind config) as [a|]; simpl.
  - intros _. now exists a.
  - discriminate.
Qed.

(** With the bind address set, [p2ppeering] returns: an error, or the
    peer-to-peer source. It does not join the cluster. *)
Lemma p2ppeering_run (config : Config) (w : W) (a : TCPAddr) :
  P2PBind config = Some a ->
  exists (r : Source * option error) (w1 : W) (tr1 : list (event call)),
    run h (p2ppeering config) w = (Returned r, w1, tr1)
    /\ joined_sources tr1 = []
    /\ (r.2 = None -> exists address d, r.1 = P2P address d).
Proof.
  intros Hbind. unfold p2ppeering. rewrite Hbind. simpl.
  destruct (h _ (envx_String _ _) w) as [port w1].
  destruct (h _ (NewAgentSigner _) w1) as [[signer [err|]] w2]; simpl.
  { eexists _, _, _. split; [reflexivity|]. split; [reflexivity|discriminate]. }
  destruct (h _ (TLSGenServer _) w2) as [[tls [err|]] w3]; simpl.
  { eexists _, _, _. split; [reflexivity|]. split; [reflexivity|discriminate]. }
  destruct (h _ (DefaultDialer _ _ _) w3) as [[d [err|]] w4]; simpl.
  { eexists _, _, _. split; [reflexivity|]. split; [reflexivity|discriminate]. }
  eexists _, _, _. split; [reflexivity|]. split; [reflexivity|].
  intros _. eexists _, _. reflexivity.
Qed.

(** [Join] after [p2ppeering] returned: a warning when it returned an error,
    a line for each discovery that is switched on, then one call of
    [ClusterJoin], whose answer [Join] returns. The sources are handed over
    in the order of the call's text. *)
Lemma Join_after_p2ppeering (t : Peering) (ctx : Context_) (config : Config)
    (c : Joiner) (snap : PeeringFile) (w w1 : W) (a : TCPAddr)
    (r : Source * option error) (tr1 : list (event call)) :
  P2PBind config = Some a ->
  run h (p2ppeering config) w = (Returned r, w1, tr1) ->
  exists (answer : option error) (w' : W),
    run h (Join t ctx config c snap) w =
    (Returned answer, w',
     tr1
     ++ match r.2 with
        | Some err =>
            [Event (Println [LogString "WARNING: P2P discovery disabled";
                             LogError err]) tt]
        | None => []
        end
     ++ enabled_lines t
     ++ [Event
           (ClusterJoin ctx config c
              [ NewStaticTCP (elems (Bootstrap t));
                match r.2 with
                | Some _ => NewStaticTCP []
                | None => r.1
                end;
                aws_source t config (Port a);
                gcloud_source t config (Port a);
                Snapshot snap;
                dns_source t config (Port a) ])
           answer]).
Proof.
  intros Hbind Hrun. unfold Join. rewrite run_bind, Hrun.
  unfold enabled_lines, aws_source, gcloud_source, dns_source.
  destruct r as [src [err|]]; destruct t as [bs [|] [|] [|]];
    simpl; rewrite ?Hbind; simpl;
    repeat match goal with
           | |- context [h ?X ?c ?v] =>
               let x := fresh "x" in
               destruct (h X c v) as [x ?]; try destruct x; simpl
           end;
    eauto.
Qed.

(** The credentials that [p2ppeering] needs: when the signer or the TLS
    configuration cannot be built, it returns that error and no source. *)
Lemma p2ppeering_needs_credentials (config : Config) (w : W) (a : TCPAddr) :
  P2PBind config = Some a ->
  let port := h _ (envx_String (Itoa (Port a)) EnvAgentClusterP2PDiscoveryPort) w in
  let signer := h _ (NewAgentSigner (Root config)) port.2 in
  let tls := h _ (TLSGenServer config) signer.2 in
  (forall err, signer.1.2 = Some err ->
     outcome_of h (p2ppeering config) w = Returned (NilSource, Some err))
  /\ (forall err, signer.1.2 = None -> tls.1.2 = Some err ->
       outcome_of h (p2ppeering config) w = Returned (NilSource, Some err)).
Proof.
  intros Hbind. unfold outcome_of, p2ppeering. rewrite Hbind. simpl.
  destruct (h _ (envx_String _ _) w) as [port w1]. simpl.
  destruct (h _ (NewAgentSigner _) w1) as [[signer [e|]] w2]; simpl.
  { split; [intros err [= ->]; reflexivity | discriminate]. }
  split; [discriminate|].
  destruct (h _ (TLSGenServer _) w2) as [[tls [e|]] w3]; simpl.
  - intros err _ [= ->]. reflexivity.
  - discriminate.
Qed.

(** X2: without a bind address, [Join] panics on the nil pointer before it
    makes any call: [p2ppeering] reads [c.P2PBind.Port] first. *)
Theorem Join_panics_unbound (t : Peering) (ctx : Context_)
    (config : Config) (c : Joiner) (snap : PeeringFile) (w : W) :
  P2PBind config = None ->
  run h (p2ppeering config) w = (Panicked, w, [])
  /\ run h (Join t ctx config c snap) w = (Panicked, w, []).
Proof.
  intros Hnil.
  assert (Hp2p : run h (p2ppeering config) w = (Panicked, w, [])).
  { unfold p2ppeering. now rewrite Hnil. }
  split; [exact Hp2p|]. unfold Join. now rewrite run_bind, Hp2p.
Qed.

(** C5: when [p2ppeering] returns an error, [Join] does not return it: it
    logs the warning, puts the no-op source [NewStaticTCP()] in the place of
    the peer-to-peer source, and goes on to hand all six sources to
    [ClusterJoin], whose answer is what [Join] returns. *)
Theorem Join_degrades_without_p2p (t : Peering) (ctx : Context_)
    (config : Config) (c : Joiner) (snap : PeeringFile) (w w1 : W)
    (s : Source) (err : error) (tr1 : list (event call)) :
  run h (p2ppeering config) w = (Returned (s, Some err), w1, tr1) ->
  exists (answer : option error) (w' : W) (a : TCPAddr),
    P2PBind config = Some a
    /\ run h (Join t ctx config c snap) w =
       (Returned answer, w',
        tr1
        ++ [Event (Println [LogString "WARNING: P2P discovery disabled";
                            LogError err]) tt]
        ++ enabled_lines t
        ++ [Event
              (ClusterJoin ctx config c
                 [ NewStaticTCP (elems (Bootstrap t));
                   NewStaticTCP [];
                   aws_source t config (Port a);
                   gcloud_source t config (Port a);
                   Snapshot snap;
                   dns_source t config (Port a) ])
              answer]).
Proof.
  intros Hrun.
  destruct (p2ppeering_returned _ _ _ _ _ Hrun) as [a Hbind].
  destruct (Join_after_p2ppeering t ctx config c snap _ _ _ _ _ Hbind Hrun)
    as (answer & w' & Hjoin).
  exists answer, w', a. split; [exact Hbind | exact Hjoin].
Qed.

Lemma joined_sources_app (tr1 tr2 : list (event call)) :
  joined_sources (tr1 ++ tr2) = joined_sources tr1 ++ joined_sources tr2.
Proof. apply omap_app. Qed.

Lemma joined_sources_enabled_lines (t : Peering) :
  joined_sources (enabled_lines t) = [].
Proof. unfold enabled_lines. now destruct t as [bs [|] [|] [|]]. Qed.

(** C1, as the code has it: with the bind address set, [Join] calls
    [ClusterJoin] once, and hands it the sources in the order static
    addresses, peer-to-peer discovery (or the no-op source in its place),
    AWS autoscaling groups, GCloud target pools, the persisted snapshot,
    DNS; a discovery that is switched off is the no-op source at its
    place. *)
Theorem Join_hands_sources_in_order (t : Peering) (ctx : Context_)
    (config : Config) (c : Joiner) (snap : PeeringFile) (w : W)
    (a : TCPAddr) :
  P2PBind config = Some a ->
  exists p2p : Source,
    joined_sources (trace h (Join t ctx config c snap) w) =
    [[ NewStaticTCP (elems (Bootstrap t));
       p2p;
       aws_source t config (Port a);
       gcloud_source t config (Port a);
       Snapshot snap;
       dns_source t config (Port a) ]]
    /\ (p2p = NewStaticTCP [] \/ exists address d, p2p = P2P address d).
Proof.
  intros Hbind.
  destruct (p2ppeering_run config w a Hbind) as (r & w1 & tr1 & Hrun & Hnone & Hp2p).
  destruct (Join_after_p2ppeering t ctx config c snap _ _ _ _ _ Hbind Hrun)
    as (answer & w' & Hjoin).
  unfold trace. rewrite Hjoin. cbn [snd].
  rewrite !joined_sources_app, Hnone, joined_sources_enabled_lines.
  destruct r as [src [err|]]; simpl.
  - eexists. split; [reflexivity|]. now left.
  - eexists. split; [reflexivity|]. right. now apply Hp2p.
Qed.

End JoinProperties.

Section JoinScenarios.
Import agent cmdopts.
#[local] Existing Instance sim.handles.
#[local] Existing Instance sim.lib.

(** Every discovery switched on, every call answered: the snapshot is the
    fifth source handed to [ClusterJoin], behind the peer-to-peer, the AWS
    and the GCloud discovery. The order static addresses, snapshot,
    discovery does not hold of the sources as handed over. *)
Lemma Join_snapshot_behind_discovery :
  exists sources : list Source,
    joined_sources
      (trace sim.env (Join sim.peering_all tt sim.config tt "peers.bin") sim.healthy)
    = [sources]
    /\ ~ snapshot_before_discovery sources.
Proof.
  eexists. split; [vm_compute; reflexivity|].
  intros Horder.
  specialize (Horder 4 1 _ _ eq_refl eq_refl eq_refl eq_refl). lia.
Qed.

(** The order of the sources, in the reference environment with every
    discovery switched on. *)
Lemma Join_hands_sources_in_order_all_enabled :
  exists p2p : Source,
    joined_sources
      (trace sim.env (Join sim.peering_all tt sim.config tt "peers.bin") sim.healthy)
    = [[ StaticTCP [Some (mkTCPAddr [x0a; x00; x00; x02] 2001 "")];
         p2p;
         AWSAutoscaling 2001 None;
         GCloudTargetPool 2001 3;
         Snapshot "peers.bin";
         DNS 2001 ["prod-cluster"] ]]
    /\ (p2p = NewStaticTCP [] \/ exists address d, p2p = P2P address d).
Proof.
  exact (Join_hands_sources_in_order sim.env sim.peering_all tt sim.config tt
           "peers.bin" sim.healthy (mkTCPAddr [x0a; x00; x00; x01] 2001 "")
           eq_refl).
Defined.

(** The signing identity cannot be built: [Join] still joins, with the
    no-op source at the second place, and returns the answer of
    [ClusterJoin], here no error. *)
Lemma Join_degrades_without_signer :
  exists (w' : sim.world) (tr : list (event call)),
    run sim.env (Join sim.peering tt sim.config tt "peers.bin") sim.no_signer
    = (Returned None, w', tr)
    /\ joined_sources tr
       = [[ StaticTCP []; StaticTCP []; StaticTCP []; StaticTCP [];
            Snapshot "peers.bin"; StaticTCP [] ]].
Proof.
  destruct (Join_degrades_without_p2p sim.env sim.peering tt sim.config tt
              "peers.bin" sim.no_signer sim.no_signer NilSource
              (errorString "NewAgentSigner")
              [ Event (envx_String "2001" EnvAgentClusterP2PDiscoveryPort) "2001"%string;
                Event (NewAgentSigner "/var/cache/bw")
                      (""%string, Some (errorString "NewAgentSigner")) ])
    as (answer & w' & a & Hbind & Hjoin).
  - vm_compute. reflexivity.
  - injection Hbind as <-.
    assert (Hanswer : answer = None).
    { revert Hjoin. vm_compute. congruence. }
    subst answer. eexists _, _. split; [exact Hjoin|].
    vm_compute. reflexivity.
Defined.

(** A configuration without a bind address: [Join] panics. *)
Lemma Join_panics_unbound_config :
  run sim.env (Join sim.peering tt sim.config_unbound tt "peers.bin") sim.healthy
  = (Panicked, sim.healthy, []).
Proof.
  exact (proj2 (Join_panics_unbound sim.env sim.peering tt sim.config_unbound
                  tt "peers.bin" sim.healthy eq_refl)).
Defined.

End JoinScenarios.

(* ===================================================================== *)
(** * Properties of the path functions *)
(* ===================================================================== *)

Section FilepathProperties.
Import filepath.

(** The table of the package's own tests of [Clean], in part. *)
Example Clean_examples :
  map filepath.Clean
      [ ""; "abc//def//ghi"; "/./abc/def"; "abc/def/../ghi/../jkl";
        "/abc/def/../../.."; "abc/def/../../../ghi/jkl/../../../mno";
        "abc/../../././../def"; "//abc//"; "../../" ]%string
  = [ "."; "abc/def/ghi"; "/abc/def"; "abc/jkl"; "/"; "../../mno";
      "../../def"; "/abc"; "../.." ]%string.
Proof. vm_compute. reflexivity. Qed.

Example Dir_examples :
  map filepath.Dir [ ""; "."; "/."; "/foo"; "x/"; "abc"; "abc/def"; "a/b/c.x"; "////" ]%string
  = [ "."; "."; "/"; "/"; "x"; "."; "abc"; "a/b"; "/" ]%string.
Proof. vm_compute. reflexivity. Qed.

Example Join_examples :
  map filepath.Join
      [ []; [""]; ["a"; "b"]; ["a"; ""]; [""; "b"]; ["/"; "a"]; ["a/"; "b"];
        [""; ""]; ["/var/cache/bw"; "raft.d"] ]%string
  = [ ""; ""; "a/b"; "a"; "b"; "/a"; "a/b"; ""; "/var/cache/bw/raft.d" ]%string.
Proof. vm_compute. reflexivity. Qed.

Lemma IsAbs_cons (c : ascii) (path : string) :
  filepath.IsAbs (String c path) = Ascii.eqb c "/".
Proof.
  unfold filepath.IsAbs. cbn [String.prefix].
  destruct (ascii_dec "/"%char c) as [<-|Hne].
  - now destruct path.
  - symmetry. apply Ascii.eqb_neq. congruence.
Qed.

Lemma IsAbs_rooted (path : string) :
  filepath.IsAbs path = true <-> rooted (list_ascii_of_string path).
Proof.
  unfold rooted. destruct path as [|c path].
  - split; discriminate.
  - rewrite IsAbs_cons. cbn [list_ascii_of_string head].
    rewrite Ascii.eqb_eq. split; congruence.
Qed.

Lemma IsAbs_of_list (l : list ascii) :
  filepath.IsAbs (string_of_list_ascii l) = true <-> rooted l.
Proof. rewrite IsAbs_rooted, list_ascii_of_string_of_list_ascii. reflexivity. Qed.

Lemma back_up_ge (steps : nat) (out : list ascii) (w dotdot : nat) :
  dotdot <= w -> dotdot <= filepath.back_up steps out w dotdot.
Proof.
  revert w. induction steps as [|steps IH]; intros w Hw; simpl; [exact Hw|].
  destruct (dotdot <? w) eqn:Hlt; simpl; [|exact Hw].
  destruct (negb _); [|exact Hw].
  apply IH. apply Nat.ltb_lt in Hlt. lia.
Qed.

Lemma back_up_le (steps : nat) (out : list ascii) (w dotdot : nat) :
  filepath.back_up steps out w dotdot <= w.
Proof.
  revert w. induction steps as [|steps IH]; intros w; simpl; [lia|].
  destruct ((dotdot <? w) && _); [|lia].
  specialize (IH (w - 1)). lia.
Qed.

(** Dropping an element keeps the first [dotdot] bytes of the output. *)
Lemma drop_element_head (out : list ascii) (dotdot : nat) :
  1 <= dotdot -> dotdot < length out ->
  head (filepath.drop_element out dotdot) = head out.
Proof.
  intros Hd Hlen. unfold filepath.drop_element.
  pose proof (back_up_ge (length out) out (length out - 1) dotdot) as Hge.
  destruct (filepath.back_up _ _ _ _) as [|w]; [lia|].
  now destruct out.
Qed.

Lemma head_app_nonempty {A : Type} (l k : list A) :
  l <> [] -> head (l ++ k) = head l.
Proof. now destruct l. Qed.

(** The loop on a rooted path keeps the slash the output starts with. *)
Lemma clean_loop_rooted (turns : nat) (rest out : list ascii) (dotdot : nat) :
  1 <= dotdot -> rooted out ->
  rooted (filepath.clean_loop turns true rest out dotdot).
Proof.
  revert rest out. induction turns as [|turns IH]; intros rest out Hd Hout;
    simpl; [exact Hout|].
  destruct rest as [|c rest1]; [exact Hout|].
  assert (Hne : out <> []) by (intros ->; discriminate Hout).
  destruct (filepath.IsPathSeparator c); [now apply IH|].
  destruct (Ascii.eqb c "." && filepath.at_boundary rest1); [now apply IH|].
  destruct (Ascii.eqb c "." && _).
  - destruct (dotdot <? length out) eqn:Hlt; simpl.
    + apply IH; [exact Hd|]. unfold rooted.
      rewrite drop_element_head; [exact Hout | exact Hd | now apply Nat.ltb_lt].
    + now apply IH.
  - apply IH; [exact Hd|]. unfold rooted.
    rewrite head_app_nonempty.
    + destruct (_ || _); [now rewrite head_app_nonempty | exact Hout].
    + destruct (_ || _); [now destruct out | exact Hne].
Qed.

Lemma element_head (c : ascii) (rest : list ascii) :
  filepath.IsPathSeparator c = false ->
  head (filepath.element (c :: rest)) = Some c.
Proof. intros Hc. simpl. now rewrite Hc. Qed.

Lemma not_separator (c : ascii) :
  filepath.IsPathSeparator c = false -> Some c <> Some "/"%char.
Proof.
  unfold filepath.IsPathSeparator. intros Hc [= ->]. discriminate Hc.
Qed.

Lemma unrooted_take (n : nat) (l : list ascii) : unrooted l -> unrooted (take n l).
Proof.
  unfold unrooted. destruct n, l; simpl; try congruence.
Qed.

(** The loop on a path that is not rooted never starts the output with a
    slash. *)
Lemma clean_loop_unrooted (turns : nat) (rest out : list ascii) (dotdot : nat) :
  unrooted out ->
  unrooted (filepath.clean_loop turns false rest out dotdot).
Proof.
  revert rest out dotdot.
  induction turns as [|turns IH]; intros rest out dotdot Hout; simpl;
    [exact Hout|].
  destruct rest as [|c rest1]; [exact Hout|].
  destruct (filepath.IsPathSeparator c) eqn:Hc; [now apply IH|].
  destruct (Ascii.eqb c "." && filepath.at_boundary rest1); [now apply IH|].
  destruct (Ascii.eqb c "." && _).
  - destruct (dotdot <? length out); simpl.
    + apply IH. now apply unrooted_take.
    + apply IH. unfold unrooted in *.
      destruct out as [|o out]; simpl; [discriminate | exact Hout].
  - apply IH. unfold unrooted in *. simpl.
    destruct out as [|o out]; simpl.
    + rewrite Hc. simpl. now apply not_separator.
    + exact Hout.
Qed.

Lemma string_of_list_not_empty (l : list ascii) :
  l <> [] -> string_of_list_ascii l <> ""%string.
Proof. destruct l; [congruence | discriminate]. Qed.

(** [Clean] never returns the empty string. *)
Lemma Clean_not_empty (path : string) : filepath.Clean path <> ""%string.
Proof.
  unfold filepath.Clean.
  destruct (list_ascii_of_string path) as [|c rest]; [discriminate|].
  apply string_of_list_not_empty.
  match goal with
  | |- (if length ?out =? 0 then _ else _) <> [] =>
      destruct out; simpl; discriminate
  end.
Qed.

(** [Clean] keeps a path absolute, and keeps a path relative. *)
Lemma Clean_IsAbs (path : string) :
  filepath.IsAbs (filepath.Clean path) = filepath.IsAbs path.
Proof.
  destruct (filepath.IsAbs path) eqn:Habs.
  - apply IsAbs_rooted in Habs. unfold filepath.Clean.
    destruct (list_ascii_of_string path) as [|c rest]; [discriminate Habs|].
    injection Habs as ->. simpl.
    apply IsAbs_of_list.
    pose proof (clean_loop_rooted (length rest) rest ["/"%char] 1 (le_n 1) eq_refl)
      as Hloop.
    destruct (filepath.clean_loop _ _ _ _ _); [discriminate Hloop | exact Hloop].
  - apply not_true_iff_false. apply not_true_iff_false in Habs.
    rewrite IsAbs_rooted in *. unfold filepath.Clean.
    destruct (list_ascii_of_string path) as [|c rest] eqn:Hpath;
      [simpl; discriminate|].
    assert (Hc : filepath.IsPathSeparator c = false).
    { unfold filepath.IsPathSeparator.
      destruct (Ascii.eqb_spec c "/") as [->|]; [now destruct Habs | reflexivity]. }
    rewrite Hc, list_ascii_of_string_of_list_ascii.
    pose proof (clean_loop_unrooted (S (length rest)) (c :: rest) [] 0) as Hloop.
    destruct (filepath.clean_loop _ _ _ _ _) as [|o out]; [discriminate|].
    apply Hloop. discriminate.
Qed.

Lemma element_length (l : list ascii) :
  length (filepath.element l) <= length l.
Proof.
  induction l as [|c l IH]; simpl; [lia|].
  destruct (filepath.IsPathSeparator c); simpl; lia.
Qed.

Lemma element_stops (l k : list ascii) :
  length (filepath.element (l ++ "/"%char :: k)) <= length l.
Proof.
  induction l as [|c l IH]; simpl; [lia|].
  destruct (filepath.IsPathSeparator c); simpl; lia.
Qed.

(** [Dir] keeps a path absolute, and keeps a path relative. *)
Lemma Dir_IsAbs (path : string) :
  filepath.IsAbs (filepath.Dir path) = filepath.IsAbs path.
Proof.
  unfold filepath.Dir. rewrite Clean_IsAbs.
  destruct (filepath.IsAbs path) eqn:Habs.
  - apply IsAbs_of_list. apply IsAbs_rooted in Habs.
    unfold filepath.up_to_last_separator.
    destruct (list_ascii_of_string path) as [|c rest]; [discriminate Habs|].
    injection Habs as ->.
    assert (Hlen : length (filepath.element (rev ("/"%char :: rest))) <= length rest).
    { simpl rev. pose proof (element_stops (rev rest) []) as Hstops.
      now rewrite length_rev in Hstops. }
    remember (length (filepath.element (rev ("/"%char :: rest)))) as k eqn:Hk.
    clear Hk. cbn [length].
    destruct (S (length rest) - k) as [|n] eqn:Hn; [lia | reflexivity].
  - apply not_true_iff_false. apply not_true_iff_false in Habs.
    rewrite IsAbs_of_list. rewrite IsAbs_rooted in Habs.
    intros Hrooted. apply Habs. revert Hrooted.
    unfold filepath.up_to_last_separator, rooted.
    destruct (length _ - _), (list_ascii_of_string path); simpl; congruence.
Qed.

Lemma Dir_not_empty (path : string) : filepath.Dir path <> ""%string.
Proof. apply Clean_not_empty. Qed.

Lemma IsAbs_append (e rest : string) :
  e <> ""%string -> filepath.IsAbs (e ++ rest) = filepath.IsAbs e.
Proof.
  destruct e as [|c e]; [congruence|]. intros _.
  change (String c e ++ rest)%string with (String c (e ++ rest)%string).
  now rewrite !IsAbs_cons.
Qed.

(** [Join] on a first element that is not empty: absolute exactly when
    that element is, and never empty. *)
Lemma Join_first (e : string) (rest : list string) :
  e <> ""%string ->
  filepath.Join (e :: rest) <> ""%string
  /\ filepath.IsAbs (filepath.Join (e :: rest)) = filepath.IsAbs e.
Proof.
  intros He. simpl. destruct (String.eqb_spec e ""); [congruence|].
  split; [apply Clean_not_empty|]. rewrite Clean_IsAbs.
  destruct rest as [|r rest]; [reflexivity|]. now apply IsAbs_append.
Qed.

(** [Join] of two elements, the second of which is not empty, is not
    empty. *)
Lemma Join_second_not_empty (a b : string) :
  b <> ""%string -> filepath.Join [a; b] <> ""%string.
Proof.
  intros Hb. destruct (String.eqb_spec a "") as [->|Ha].
  - simpl. destruct (String.eqb_spec b ""); [congruence|]. apply Clean_not_empty.
  - now apply Join_first.
Qed.

End FilepathProperties.

Section JoinPlainName.
Import filepath.

Lemma at_boundary_app (l k : list ascii) :
  at_boundary (l ++ "/"%char :: k) = at_boundary l.
Proof. destruct l; reflexivity. Qed.

Lemma element_app_separator (l k : list ascii) :
  element (l ++ "/"%char :: k) = element l.
Proof.
  induction l as [|c l IH]; [reflexivity|]. cbn [app element].
  destruct (IsPathSeparator c); [reflexivity | now rewrite IH].
Qed.

Lemma element_plain (name : list ascii) :
  forallb (fun c => negb (IsPathSeparator c)) name = true -> element name = name.
Proof.
  induction name as [|c name IH]; [reflexivity|]. cbn [forallb element].
  intros [Hc Hname]%andb_prop. apply negb_true_iff in Hc. rewrite Hc.
  now rewrite IH.
Qed.

(** One turn of the loop of [Clean]. *)
Lemma clean_loop_turn (turns : nat) (rooted : bool) (c : ascii)
    (rest1 out : list ascii) (dotdot : nat) :
  clean_loop (S turns) rooted (c :: rest1) out dotdot
  = if IsPathSeparator c then clean_loop turns rooted rest1 out dotdot
    else if Ascii.eqb c "." && at_boundary rest1 then
      clean_loop turns rooted rest1 out dotdot
    else if Ascii.eqb c "." &&
            match rest1 with
            | c1 :: rest2 => Ascii.eqb c1 "." && at_boundary rest2
            | [] => false
            end then
      let rest2 := drop 1 rest1 in
      if dotdot <? length out then
        clean_loop turns rooted rest2 (drop_element out dotdot) dotdot
      else if negb rooted then
        let out1 := if 0 <? length out then out ++ ["/"%char] else out in
        let out2 := out1 ++ ["."%char; "."%char] in
        clean_loop turns rooted rest2 out2 (length out2)
      else
        clean_loop turns rooted rest2 out dotdot
    else
      let out1 :=
        if (rooted && negb (length out =? 1))
           || (negb rooted && negb (length out =? 0))
        then out ++ ["/"%char] else out in
      clean_loop turns rooted (drop (length (element (c :: rest1))) (c :: rest1))
                 (out1 ++ element (c :: rest1)) dotdot.
Proof. reflexivity. Qed.

Lemma clean_loop_nil (turns : nat) (rooted : bool) (out : list ascii) (dotdot : nat) :
  clean_loop turns rooted [] out dotdot = out.
Proof. destruct turns; reflexivity. Qed.

(** The loop on a plain name writes the name behind the output, after a
    separator where the output needs one. *)
Lemma clean_loop_plain (turns : nat) (rooted : bool) (name out : list ascii)
    (dotdot : nat) :
  name <> [] -> name <> ["."%char] -> name <> ["."%char; "."%char] ->
  forallb (fun c => negb (IsPathSeparator c)) name = true ->
  clean_loop (S turns) rooted name out dotdot
  = (if (rooted && negb (length out =? 1)) || (negb rooted && negb (length out =? 0))
     then out ++ ["/"%char] else out) ++ name.
Proof.
  intros Hnil Hdot Hdotdot Hplain.
  pose proof (element_plain name Hplain) as Helement.
  destruct name as [|c rest1]; [congruence|].
  rewrite clean_loop_turn. cbn [forallb] in Hplain.
  apply andb_prop in Hplain as [Hc Hrest]. apply negb_true_iff in Hc.
  rewrite Hc.
  assert (H1 : Ascii.eqb c "." && at_boundary rest1 = false).
  { destruct (Ascii.eqb_spec c "."%char) as [->|]; [|reflexivity].
    destruct rest1 as [|c1 rest2]; [congruence|].
    cbn [forallb] in Hrest. apply andb_prop in Hrest as [Hc1 _].
    apply negb_true_iff in Hc1. cbn [at_boundary andb]. exact Hc1. }
  rewrite H1.
  assert (H2 : Ascii.eqb c "." &&
               match rest1 with
               | c1 :: rest2 => Ascii.eqb c1 "." && at_boundary rest2
               | [] => false
               end = false).
  { destruct (Ascii.eqb_spec c "."%char) as [->|]; [|reflexivity].
    destruct rest1 as [|c1 rest2]; [reflexivity|].
    destruct (Ascii.eqb_spec c1 "."%char) as [->|]; [|reflexivity].
    destruct rest2 as [|c2 rest3]; [congruence|].
    cbn [forallb] in Hrest. apply andb_prop in Hrest as [_ Hrest].
    apply andb_prop in Hrest as [Hc2 _]. apply negb_true_iff in Hc2.
    cbn [at_boundary andb]. exact Hc2. }
  rewrite H2. cbv zeta. rewrite Helement, drop_all, clean_loop_nil.
  reflexivity.
Qed.

(** A path that ends in a separator and a plain name: the loop cleans
    what is before the separator, and then writes the name. *)
Lemma clean_loop_plain_last (turns' turns : nat) (rooted : bool)
    (l name out : list ascii) (dotdot : nat) :
  name <> [] -> name <> ["."%char] -> name <> ["."%char; "."%char] ->
  forallb (fun c => negb (IsPathSeparator c)) name = true ->
  length l <= turns' -> length l + 2 <= turns ->
  clean_loop turns rooted (l ++ "/"%char :: name) out dotdot
  = let o := clean_loop turns' rooted l out dotdot in
    (if (rooted && negb (length o =? 1)) || (negb rooted && negb (length o =? 0))
     then o ++ ["/"%char] else o) ++ name.
Proof.
  intros Hnil Hdot Hdotdot Hplain.
  revert turns l out dotdot.
  induction turns' as [|turns' IH]; intros turns l out dotdot Hl Hturns.
  - destruct l; [|simpl in Hl; lia]. cbn [app length] in *.
    destruct turns as [|[|turns]]; try lia.
    rewrite clean_loop_turn. change (IsPathSeparator "/"%char) with true. cbv match.
    rewrite clean_loop_plain by assumption. reflexivity.
  - destruct l as [|c rest1].
    + cbn [app length] in *. destruct turns as [|[|turns]]; try lia.
      rewrite clean_loop_turn. change (IsPathSeparator "/"%char) with true. cbv match.
      rewrite clean_loop_plain by assumption. reflexivity.
    + cbn [length] in Hl, Hturns. destruct turns as [|turns]; [lia|].
      change ((c :: rest1) ++ "/"%char :: name)
        with (c :: (rest1 ++ "/"%char :: name)).
      rewrite !clean_loop_turn, at_boundary_app.
      change (c :: (rest1 ++ "/"%char :: name))
        with ((c :: rest1) ++ "/"%char :: name).
      rewrite element_app_separator.
      destruct (IsPathSeparator c) eqn:Hsep; [apply IH; lia|].
      destruct (Ascii.eqb c "." && at_boundary rest1); [apply IH; lia|].
      destruct rest1 as [|c1 rest2].
      * cbn [app]. change (Ascii.eqb "/" ".") with false.
        cbn [andb]. rewrite andb_false_r. cbv zeta.
        pose proof (element_length [c]) as Hlen.
        assert (Hk : length (element [c]) = 1).
        { cbn [element]. rewrite Hsep. reflexivity. }
        rewrite Hk. cbn [drop app]. rewrite ?drop_0.
        apply (IH turns [] _ dotdot); cbn [length]; lia.
      * cbn [app]. rewrite at_boundary_app.
        destruct (Ascii.eqb c "." && (Ascii.eqb c1 "." && at_boundary rest2)).
        { cbv zeta. cbn [drop]. rewrite ?drop_0.
          assert (Hlen2 : length rest2 <= turns') by (cbn [length] in Hl; lia).
          assert (Hlen3 : length rest2 + 2 <= turns) by (cbn [length] in Hturns; lia).
          destruct (dotdot <? length out); [apply IH; assumption|].
          destruct (negb rooted); apply IH; assumption. }
        cbv zeta.
        pose proof (element_length (c :: c1 :: rest2)) as Hlen.
        assert (Hk : 1 <= length (element (c :: c1 :: rest2))).
        { cbn [element]. rewrite Hsep. cbn [length]. lia. }
        change (c :: c1 :: rest2 ++ "/"%char :: name)
          with ((c :: c1 :: rest2) ++ "/"%char :: name).
        rewrite drop_app_le by exact Hlen.
        apply IH.
        -- rewrite length_drop. cbn [length] in *. lia.
        -- rewrite length_drop. cbn [length] in *. lia.
Qed.

Lemma plain_name_list (name : string) :
  plain_name name = true ->
  let l := list_ascii_of_string name in
  l <> [] /\ l <> ["."%char] /\ l <> ["."%char; "."%char]
  /\ forallb (fun c => negb (IsPathSeparator c)) l = true.
Proof.
  unfold plain_name. intros H.
  apply andb_prop in H as [H Hplain]. apply andb_prop in H as [H Hdotdot].
  apply andb_prop in H as [Hnil Hdot].
  apply negb_true_iff, String.eqb_neq in Hnil, Hdot, Hdotdot.
  cbv zeta. repeat split; try assumption.
  - intros Hl. apply Hnil. rewrite <- (string_of_list_ascii_of_string name), Hl.
    reflexivity.
  - intros Hl. apply Hdot. rewrite <- (string_of_list_ascii_of_string name), Hl.
    reflexivity.
  - intros Hl. apply Hdotdot. rewrite <- (string_of_list_ascii_of_string name), Hl.
    reflexivity.
Qed.

Lemma list_ascii_of_string_app (a b : string) :
  list_ascii_of_string (a ++ b)
  = list_ascii_of_string a ++ list_ascii_of_string b.
Proof.
  induction a as [|c a IH]; [reflexivity|].
  change (String c a ++ b)%string with (String c (a ++ b)%string).
  cbn [list_ascii_of_string app]. now rewrite IH.
Qed.

Lemma string_of_list_app (l k : list ascii) :
  string_of_list_ascii (l ++ k)
  = (string_of_list_ascii l ++ string_of_list_ascii k)%string.
Proof.
  induction l as [|c l IH]; [reflexivity|].
  change (string_of_list_ascii ((c :: l) ++ k))
    with (String c (string_of_list_ascii (l ++ k))).
  rewrite IH. reflexivity.
Qed.

Lemma string_append_assoc (a b c : string) :
  ((a ++ b) ++ c)%string = (a ++ b ++ c)%string.
Proof.
  induction a as [|x a IH]; [reflexivity|].
  change (String x a ++ b)%string with (String x (a ++ b)%string).
  change (String x (a ++ b) ++ c)%string with (String x ((a ++ b) ++ c)%string).
  change (String x a ++ b ++ c)%string with (String x (a ++ b ++ c)%string).
  now rewrite IH.
Qed.

(** Cleaning a path that ends in a plain name: the name is an entry of the
    directory that the path before it cleans to. *)
Lemma Clean_plain_name (e name : string) :
  e <> ""%string -> plain_name name = true ->
  entry_of (Clean (e ++ "/" ++ name)) (Clean e) name.
Proof.
  intros He Hname.
  destruct (plain_name_list name Hname) as (Hnil & Hdot & Hdotdot & Hplain).
  cbv zeta in *.
  destruct e as [|c e]; [congruence|]. clear He.
  unfold Clean.
  change (String c e ++ "/" ++ name)%string
    with (String c (e ++ String "/" name)%string).
  cbn [list_ascii_of_string]. rewrite list_ascii_of_string_app.
  cbn [list_ascii_of_string].
  set (l := list_ascii_of_string e). set (n := list_ascii_of_string name) in *.
  assert (Hn : string_of_list_ascii n = name)
    by apply string_of_list_ascii_of_string.
  assert (Hn1 : 1 <= length n) by (destruct n; [congruence | simpl; lia]).
  assert (Hout : forall x : list ascii,
             string_of_list_ascii (if length (x ++ n) =? 0 then ["."%char] else x ++ n)
             = (string_of_list_ascii x ++ name)%string).
  { intros x. rewrite <- Hn, <- string_of_list_app.
    destruct (Nat.eqb_spec (length (x ++ n)) 0) as [Hlen|]; [|reflexivity].
    rewrite length_app in Hlen. lia. }
  destruct (IsPathSeparator c) eqn:Hsep.
  - (* a rooted path *)
    rewrite length_app, length_cons.
    rewrite (clean_loop_plain_last (length l) _ true l n ["/"%char] 1)
      by (assumption || lia).
    cbv zeta. set (o := clean_loop (length l) true l ["/"%char] 1).
    assert (Hrooted : rooted o) by (apply clean_loop_rooted; [lia|reflexivity]).
    rewrite Hout. cbn [andb orb negb]. rewrite orb_false_r.
    destruct o as [|c0 [|c1 o']] eqn:Ho; [discriminate Hrooted| |].
    + injection Hrooted as ->. right. left. split; reflexivity.
    + right. right. cbn [length Nat.eqb negb].
      rewrite string_of_list_app, string_append_assoc. reflexivity.
  - (* a relative path *)
    change (c :: l ++ "/"%char :: n) with ((c :: l) ++ "/"%char :: n).
    rewrite (clean_loop_plain_last (S (length l)) _ false (c :: l) n [] 0)
      by (assumption || (rewrite ?length_app, ?length_cons; lia)).
    cbv zeta. set (o := clean_loop (S (length l)) false (c :: l) [] 0).
    rewrite Hout. cbn [andb orb negb].
    destruct o as [|c0 o'] eqn:Ho.
    + left. split; reflexivity.
    + right. right. cbn [length Nat.eqb negb].
      rewrite string_of_list_app, string_append_assoc. reflexivity.
Qed.

(** [Join] of a directory and a plain name. *)
Lemma Join_plain_name (e name : string) :
  e <> ""%string -> plain_name name = true ->
  entry_of (Join [e; name]) (Clean e) name.
Proof.
  intros He Hname. cbn [Join].
  destruct (String.eqb_spec e ""); [contradiction|].
  now apply Clean_plain_name.
Qed.

End JoinPlainName.

(* ===================================================================== *)
(** * Properties of the options and defaults of a configuration *)
(* ===================================================================== *)

Section ConfigProperties.
Import agent config.
Context `{Package}.

Lemma apply_options_app (a b : list ConfigOption) (c : Config) :
  apply_options (a ++ b) c = apply_options b (apply_options a c).
Proof. unfold apply_options. apply fold_left_app. Qed.

(** X3: options compose in the order given. Cloning with one list of
    options and then with another is cloning with the two lists in a row;
    a composed option counts as its options in a row; and [NewConfig] with
    options is the default configuration cloned with them. *)
Theorem Clone_composes (c : Config) (a b : list ConfigOption) :
  Clone (Clone c a) b = Clone c (a ++ b)
  /\ Clone c (ConfigOptionCompose a :: b) = Clone c (a ++ b)
  /\ Clone c [ConfigOptionCompose a; ConfigOptionCompose b] = Clone c (a ++ b)
  /\ NewConfig (a ++ b) = Clone (NewConfig a) b
  /\ NewConfig a = Clone (NewConfig []) a.
Proof.
  unfold Clone, NewConfig, ConfigOptionCompose.
  repeat split; rewrite ?apply_options_app; reflexivity.
Qed.

(** [EnsureDefaults] field by field: the four statements of its text read
    fields that the statements before them do not write, but for the CA
    path, which is built on the directory just set. *)
Lemma EnsureDefaults_eq (t : Config) :
  EnsureDefaults t
  = let dir :=
      if String.eqb (CredentialsDir t) ""
      then filepath.Join [Root t; DefaultDirAgentCredentials]
      else CredentialsDir t in
    {| Name := Name t; Root := Root t; KeepN := KeepN t;
       MinimumNodes := MinimumNodes t; Bootstrap := Bootstrap t;
       SnapshotFrequency := SnapshotFrequency t; P2PBind := P2PBind t;
       P2PAdvertised :=
         match P2PAdvertised t with
         | Some advertised => Some advertised
         | None => P2PBind t
         end;
       AlternateBinds := AlternateBinds t;
       ClusterTokens := ClusterTokens t;
       ServerName := ServerName t;
       CA := if String.eqb (CA t) ""
             then filepath.Join [dir; DefaultTLSCertCA]
             else CA t;
       CredentialsMode := CredentialsMode t;
       CredentialsDir := dir;
       Credentials :=
         mkCredentials
           (Mode (Credentials t))
           (if String.eqb (Directory (Credentials t)) ""
            then filepath.Join [Root t; DefaultDirAgentCredentials]
            else Directory (Credentials t));
       DNSBind := DNSBind t; DNSBootstrap := DNSBootstrap t;
       AWSBootstrap := AWSBootstrap t |}.
Proof.
  destruct t as [name root keep minimum boot freq bind adv alt tokens server
                 ca mode dir [cmode cdir] dns dnsboot aws].
  destruct dir as [|? ?], cdir as [|? ?], ca as [|? ?], adv as [?|];
    reflexivity.
Qed.

Lemma EnsureDefaults_CredentialsDir (t : Config) :
  CredentialsDir (EnsureDefaults t)
  = if String.eqb (CredentialsDir t) ""
    then filepath.Join [Root t; DefaultDirAgentCredentials]
    else CredentialsDir t.
Proof. now rewrite EnsureDefaults_eq. Qed.

Lemma EnsureDefaults_Directory (t : Config) :
  Directory (Credentials (EnsureDefaults t))
  = if String.eqb (Directory (Credentials t)) ""
    then filepath.Join [Root t; DefaultDirAgentCredentials]
    else Directory (Credentials t).
Proof. now rewrite EnsureDefaults_eq. Qed.

Lemma EnsureDefaults_CA (t : Config) :
  CA (EnsureDefaults t)
  = if String.eqb (CA t) ""
    then filepath.Join [CredentialsDir (EnsureDefaults t); DefaultTLSCertCA]
    else CA t.
Proof. now rewrite EnsureDefaults_eq. Qed.

Lemma EnsureDefaults_P2PAdvertised (t : Config) :
  P2PAdvertised (EnsureDefaults t)
  = match P2PAdvertised t with
    | Some advertised => Some advertised
    | None => P2PBind t
    end.
Proof. now rewrite EnsureDefaults_eq. Qed.

Lemma EnsureDefaults_Name (t : Config) :
  Name (EnsureDefaults t) = Name t /\ Root (EnsureDefaults t) = Root t.
Proof. now rewrite EnsureDefaults_eq. Qed.

Lemma EnsureDefaults_P2PBind (t : Config) :
  P2PBind (EnsureDefaults t) = P2PBind t.
Proof. now rewrite EnsureDefaults_eq. Qed.

(** X4: [EnsureDefaults] is idempotent: applied to its own result it
    changes nothing, whatever the root and the default names are. *)
Theorem EnsureDefaults_idempotent (t : Config) :
  EnsureDefaults (EnsureDefaults t) = EnsureDefaults t.
Proof.
  pose proof (EnsureDefaults_CredentialsDir t) as Hdir.
  pose proof (EnsureDefaults_Directory t) as Hcdir.
  pose proof (EnsureDefaults_CA t) as Hca.
  pose proof (EnsureDefaults_P2PAdvertised t) as Hadv.
  pose proof (proj2 (EnsureDefaults_Name t)) as Hroot.
  pose proof (EnsureDefaults_P2PBind t) as Hbind.
  rewrite (EnsureDefaults_eq (EnsureDefaults t)).
  destruct (EnsureDefaults t)
    as [name root keep minimum boot freq bind adv alt tokens server
        ca mode dir [cmode cdir] dns dnsboot aws].
  cbn [Name Root KeepN MinimumNodes Bootstrap SnapshotFrequency P2PBind
       P2PAdvertised AlternateBinds ClusterTokens ServerName CA
       CredentialsMode CredentialsDir Credentials DNSBind DNSBootstrap
       AWSBootstrap Mode Directory] in *.
  cbv zeta. subst root.
  assert (Hdir' : (if String.eqb dir ""
                   then filepath.Join [Root t; DefaultDirAgentCredentials]
                   else dir) = dir).
  { destruct (String.eqb_spec dir "") as [->|]; [|reflexivity].
    destruct (String.eqb_spec (CredentialsDir t) ""); congruence. }
  rewrite Hdir'. f_equal.
  - destruct adv as [a|]; [reflexivity|].
    destruct (P2PAdvertised t); [discriminate | congruence].
  - destruct (String.eqb_spec ca "") as [->|]; [|reflexivity].
    destruct (String.eqb_spec (CA t) ""); congruence.
  - f_equal. destruct (String.eqb_spec cdir "") as [->|]; [|reflexivity].
    destruct (String.eqb_spec (Directory (Credentials t)) ""); congruence.
Qed.

(** X5: [EnsureDefaults] fills in only what is missing. A credentials
    directory, a CA path or an advertised address that is set is kept; the
    other fields are never touched; a missing CA path is built on the
    deprecated [CredentialsDir] as it is after its own default, and a
    missing advertised address becomes the bind address. *)
Theorem EnsureDefaults_fills_only_missing (t : Config) :
  let t' := EnsureDefaults t in
  (Name t' = Name t /\ Root t' = Root t /\ KeepN t' = KeepN t
   /\ MinimumNodes t' = MinimumNodes t /\ Bootstrap t' = Bootstrap t
   /\ SnapshotFrequency t' = SnapshotFrequency t /\ P2PBind t' = P2PBind t
   /\ AlternateBinds t' = AlternateBinds t /\ ClusterTokens t' = ClusterTokens t
   /\ ServerName t' = ServerName t /\ CredentialsMode t' = CredentialsMode t
   /\ Mode (Credentials t') = Mode (Credentials t) /\ DNSBind t' = DNSBind t
   /\ DNSBootstrap t' = DNSBootstrap t /\ AWSBootstrap t' = AWSBootstrap t)
  /\ CredentialsDir t' =
       (if String.eqb (CredentialsDir t) ""
        then filepath.Join [Root t; DefaultDirAgentCredentials]
        else CredentialsDir t)
  /\ Directory (Credentials t') =
       (if String.eqb (Directory (Credentials t)) ""
        then filepath.Join [Root t; DefaultDirAgentCredentials]
        else Directory (Credentials t))
  /\ CA t' =
       (if String.eqb (CA t) ""
        then filepath.Join [CredentialsDir t'; DefaultTLSCertCA]
        else CA t)
  /\ P2PAdvertised t' =
       match P2PAdvertised t with
       | Some advertised => Some advertised
       | None => P2PBind t
       end.
Proof.
  cbv zeta. rewrite !EnsureDefaults_CredentialsDir.
  rewrite EnsureDefaults_eq. cbv zeta. cbn. repeat split.
Qed.

(** X6: when the default names of the credentials directory and of the CA
    certificate are not empty, [EnsureDefaults] leaves no credentials path
    empty, even for a configuration with an empty root. *)
Theorem EnsureDefaults_leaves_no_path_empty (t : Config) :
  DefaultDirAgentCredentials <> ""%string ->
  DefaultTLSCertCA <> ""%string ->
  CredentialsDir (EnsureDefaults t) <> ""%string
  /\ Directory (Credentials (EnsureDefaults t)) <> ""%string
  /\ CA (EnsureDefaults t) <> ""%string.
Proof.
  intros Hdir Hca.
  rewrite EnsureDefaults_CA, EnsureDefaults_Directory, EnsureDefaults_CredentialsDir.
  repeat split.
  - destruct (String.eqb_spec (CredentialsDir t) ""); [|assumption].
    now apply Join_second_not_empty.
  - destruct (String.eqb_spec (Directory (Credentials t)) ""); [|assumption].
    now apply Join_second_not_empty.
  - destruct (String.eqb_spec (CA t) ""); [|assumption].
    now apply Join_second_not_empty.
Qed.

Lemma uint32_range (x : Z) : (0 <= uint32 x < 2 ^ 32)%Z.
Proof. unfold uint32. apply Z.mod_pos_bound. lia. Qed.

Lemma uint32_small (x : Z) : (0 <= x < 2 ^ 32)%Z -> uint32 x = x.
Proof. unfold uint32. apply Z.mod_small. Qed.

(** X7: after [EnsureDefaults], [Peer] panics exactly when neither an
    advertised nor a bind address was configured. Otherwise it returns a
    peer of status node with the name of the configuration, the text of
    the advertised address (the bind address when none was advertised),
    and the port converted to [uint32]: the port modulo 2^32, the port
    itself when it lies in that range. *)
Theorem Peer_after_EnsureDefaults (t : Config) :
  (Peer (EnsureDefaults t) = Panicked
   <-> P2PAdvertised t = None /\ P2PBind t = None)
  /\ (forall p : Peer_,
        Peer (EnsureDefaults t) = Returned p ->
        exists a : TCPAddr,
          (P2PAdvertised t = Some a
           \/ (P2PAdvertised t = None /\ P2PBind t = Some a))
          /\ Status p = Peer_Node
          /\ Peer_Name p = Name t
          /\ Ip p = IP_String (IP a)
          /\ P2PPort p = (Port a mod 2 ^ 32)%Z
          /\ (0 <= P2PPort p < 2 ^ 32)%Z
          /\ ((0 <= Port a < 2 ^ 32)%Z -> P2PPort p = Port a)).
Proof.
  unfold Peer.
  rewrite EnsureDefaults_P2PAdvertised, (proj1 (EnsureDefaults_Name t)).
  assert (Hpeer : forall (a : TCPAddr) (p : Peer_),
             Returned {| Status := Peer_Node; Peer_Name := Name t;
                         Ip := IP_String (IP a); P2PPort := uint32 (Port a) |}
             = Returned p ->
             Status p = Peer_Node
             /\ Peer_Name p = Name t
             /\ Ip p = IP_String (IP a)
             /\ P2PPort p = (Port a mod 2 ^ 32)%Z
             /\ (0 <= P2PPort p < 2 ^ 32)%Z
             /\ ((0 <= Port a < 2 ^ 32)%Z -> P2PPort p = Port a)).
  { intros a p [= <-]. cbn. repeat split;
      try apply uint32_range; try apply uint32_small; assumption. }
  destruct (P2PAdvertised t) as [a|]; [|destruct (P2PBind t) as [b|]].
  - split.
    + split; [discriminate | intros [? _]; discriminate].
    + intros p Hp. exists a. split; [now left | now apply Hpeer].
  - split.
    + split; [discriminate | intros [_ ?]; discriminate].
    + intros p Hp. exists b. split; [right; now split | now apply Hpeer].
  - split.
    + split; [now split | reflexivity].
    + discriminate.
Qed.

(** X8: the default bind address is what gets advertised. A configuration
    without an advertised address, cloned with [ConfigOptionDefaultBind(ip)]
    and completed by [EnsureDefaults], has the peer with the text of [ip]
    and the default port. *)
Theorem DefaultBind_is_advertised (c : Config) (ip : bytes) :
  P2PAdvertised c = None ->
  Peer (EnsureDefaults (Clone c [ConfigOptionDefaultBind ip]))
  = Returned {| Status := Peer_Node;
                Peer_Name := Name c;
                Ip := IP_String ip;
                P2PPort := uint32 DefaultP2PPort |}.
Proof.
  intros Hadv.
  unfold Peer.
  rewrite EnsureDefaults_P2PAdvertised, (proj1 (EnsureDefaults_Name _)).
  cbn. rewrite Hadv. reflexivity.
Qed.

End ConfigProperties.

Section ConfigScenarios.
Import agent config.
#[local] Existing Instance scenario.agent_package.

(** The default configuration, which sets none of the three paths. *)
Lemma EnsureDefaults_leaves_no_path_empty_default :
  let t := EnsureDefaults (NewConfig []) in
  CredentialsDir t <> ""%string
  /\ Directory (Credentials t) <> ""%string
  /\ CA t <> ""%string.
Proof.
  apply (EnsureDefaults_leaves_no_path_empty (NewConfig [])); discriminate.
Defined.

Example EnsureDefaults_default_paths :
  let t := EnsureDefaults (NewConfig []) in
  CredentialsDir t = "/var/cache/bearded-wookie/tls"%string
  /\ CA t = "/var/cache/bearded-wookie/tls/tlsca.cert"%string.
Proof. split; vm_compute; reflexivity. Qed.

(** The peer of the default configuration bound to 10.0.0.7. *)
Lemma DefaultBind_is_advertised_10_0_0_7 :
  Peer (EnsureDefaults
          (Clone (NewConfig []) [ConfigOptionDefaultBind [x0a; x00; x00; x07]]))
  = Returned {| Status := Peer_Node; Peer_Name := "node1";
                Ip := "10.0.0.7"; P2PPort := 2000 |}.
Proof.
  exact (DefaultBind_is_advertised (NewConfig []) [x0a; x00; x00; x07] eq_refl).
Defined.

End ConfigScenarios.

(* ===================================================================== *)
(** * Properties of the configuration of a client *)
(* ===================================================================== *)

Section ClientProperties.
Import client.
Context {float64 : Type} `{!@Package float64}.

Lemma NewConfigClient_app (t : ConfigClient float64)
    (a b : list ConfigClientOption) :
  NewConfigClient t (a ++ b) = NewConfigClient (NewConfigClient t a) b.
Proof. unfold NewConfigClient. apply fold_left_app. Qed.

(** X9: the options of a client configuration are applied from left to
    right on a copy of the template. Options given in two steps are the
    options given in a row, for [NewConfigClient], [DefaultConfigClient]
    and [ExampleConfigClient]; and an address option given last decides
    both the address, the host joined with the default port, and the
    server name, whatever the options before it set. *)
Theorem NewConfigClient_composes (t : ConfigClient float64)
    (a b : list ConfigClientOption) (s : string) :
  NewConfigClient (NewConfigClient t a) b = NewConfigClient t (a ++ b)
  /\ DefaultConfigClient (a ++ b) = NewConfigClient (DefaultConfigClient a) b
  /\ ExampleConfigClient (a ++ b) = NewConfigClient (ExampleConfigClient a) b
  /\ Address (NewConfigClient t (a ++ [CCOptionAddress s]))
     = net.JoinHostPort s (strconv.Itoa DefaultP2PPort)
  /\ ServerName (NewConfigClient t (a ++ [CCOptionAddress s])) = s.
Proof.
  unfold DefaultConfigClient, ExampleConfigClient.
  rewrite !NewConfigClient_app. repeat split.
Qed.

Lemma WorkDir_IsAbs (t : ConfigClient float64) :
  filepath.IsAbs (WorkDir t) = filepath.IsAbs (root t).
Proof. unfold WorkDir, Dir. now rewrite !Dir_IsAbs. Qed.

Lemma WorkDir_not_empty (t : ConfigClient float64) : WorkDir t <> ""%string.
Proof. apply Dir_not_empty. Qed.

Lemma Deployspace_IsAbs (t : ConfigClient float64) :
  filepath.IsAbs (Deployspace t)
  = filepath.IsAbs (DataDir (Deployment t)) || filepath.IsAbs (root t).
Proof.
  unfold Deployspace.
  destruct (filepath.IsAbs (DataDir (Deployment t))) eqn:Habs; cbn [negb orb].
  - exact Habs.
  - destruct (Join_first (WorkDir t) [DataDir (Deployment t)]
                (WorkDir_not_empty t)) as [_ ->].
    apply WorkDir_IsAbs.
Qed.

(** X10: where the deployments of a client are kept. An absolute data
    directory is returned as it is written; a relative one is joined to
    the working directory, two levels above the directory of the
    configuration, and cleaned. The result is never the empty path, and it
    is absolute exactly when the data directory or the directory of the
    configuration is. *)
Theorem Deployspace_resolves (t : ConfigClient float64) :
  Deployspace t
  = (if filepath.IsAbs (DataDir (Deployment t))
     then DataDir (Deployment t)
     else filepath.Clean
            (filepath.Dir (filepath.Dir (root t)) ++ "/" ++ DataDir (Deployment t)))
  /\ Deployspace t <> ""%string
  /\ filepath.IsAbs (Deployspace t)
     = filepath.IsAbs (DataDir (Deployment t)) || filepath.IsAbs (root t).
Proof.
  split; [|split; [|apply Deployspace_IsAbs]].
  - unfold Deployspace.
    destruct (filepath.IsAbs (DataDir (Deployment t))); cbn [negb]; [reflexivity|].
    pose proof (WorkDir_not_empty t) as Hw. unfold WorkDir, Dir in *.
    cbn [filepath.Join].
    destruct (String.eqb_spec (filepath.Dir (filepath.Dir (root t))) "");
      [contradiction|].
    reflexivity.
  - unfold Deployspace.
    destruct (filepath.IsAbs (DataDir (Deployment t))) eqn:Habs; cbn [negb].
    + intros Hempty. rewrite Hempty in Habs. discriminate Habs.
    + apply Join_first, WorkDir_not_empty.
Qed.

(** X11: loading a configuration. When the file cannot be decoded the
    error is returned with the configuration as the decoder left it, and
    the root is not set from the path. When it can, the directory of the
    file becomes the root and nothing else of the decoded configuration
    changes; for a file given by an absolute path the working directory
    and the deployment directory are then absolute. *)
Theorem LoadConfig_roots (t c : ConfigClient float64) (path : string)
    (err : option error) :
  LoadConfig t path = (c, err) ->
  match err with
  | Some e => ExpandAndDecodeFile path t = (c, Some e)
  | None =>
      c = set_root (ExpandAndDecodeFile path t).1 (filepath.Dir path)
      /\ Dir c = filepath.Dir path
      /\ Dir c <> ""%string
      /\ (filepath.IsAbs path = true ->
          filepath.IsAbs (WorkDir c) = true
          /\ filepath.IsAbs (Deployspace c) = true)
  end.
Proof.
  unfold LoadConfig.
  destruct (ExpandAndDecodeFile path t) as [decoded [e|]]; simpl;
    intros [= <- <-]; [reflexivity|].
  split; [reflexivity|]. split; [reflexivity|].
  split; [apply Dir_not_empty|].
  intros Habs.
  assert (Hroot : filepath.IsAbs (root (set_root decoded (filepath.Dir path))) = true).
  { simpl. now rewrite Dir_IsAbs. }
  split.
  - now rewrite WorkDir_IsAbs.
  - rewrite Deployspace_IsAbs, Hroot. apply orb_true_r.
Qed.

End ClientProperties.

Section ClientScenarios.
Import client.
#[local] Existing Instance scenario.client_package.

(** The default configuration loaded from a file of the repository. *)
Lemma LoadConfig_roots_repository :
  let loaded := LoadConfig (DefaultConfigClient []) "/repo/.bw/default/config.yml" in
  loaded.2 = None
  /\ Dir loaded.1 = "/repo/.bw/default"%string
  /\ WorkDir loaded.1 = "/repo"%string
  /\ Deployspace loaded.1 = "/repo/deploys"%string
  /\ filepath.IsAbs (Deployspace loaded.1) = true.
Proof.
  pose proof (LoadConfig_roots (DefaultConfigClient [])
                (LoadConfig (DefaultConfigClient []) "/repo/.bw/default/config.yml").1
                "/repo/.bw/default/config.yml" None eq_refl) as (_ & _ & _ & Habs).
  cbv zeta. split; [|split; [|split; [|split]]];
    [vm_compute; reflexivity .. | exact (proj2 (Habs eq_refl))].
Defined.

(** A configuration that was never loaded has no root: its deployments are
    kept relative to the directory of the process. *)
Example Deployspace_never_loaded :
  Deployspace (DefaultConfigClient []) = ".deployspace"%string
  /\ Deployspace (DefaultConfigClient [CCOptionDeployDataDir "/srv//deploys/"])
     = "/srv//deploys/"%string
  /\ Deployspace (DefaultConfigClient [CCOptionDeployDataDir ""]) = "."%string.
Proof. repeat split; vm_compute; reflexivity. Qed.

(** A file that cannot be decoded. *)
Example LoadConfig_broken :
  LoadConfig (DefaultConfigClient []) "/etc/bw/broken.yml"
  = (DefaultConfigClient [], Some (errorString "yaml: did not find expected key")).
Proof. vm_compute. reflexivity. Qed.

End ClientScenarios.

(* ===================================================================== *)
(** * Properties of the decoders of addresses *)
(* ===================================================================== *)

Section SplitProperties.
Import strings parse.

Lemma length_list_ascii_of_string (s : string) :
  length (list_ascii_of_string s) = String.length s.
Proof. induction s as [|c s IH]; simpl; congruence. Qed.

(** Replacing one byte by another is a map over the bytes. *)
Lemma replace_loop_single (turns : nat) (s : list ascii) (o n : ascii) :
  length s <= turns ->
  replace_loop turns s [o] [n] = map (fun c => if Ascii.eqb o c then n else c) s.
Proof.
  revert s. induction turns as [|turns IH]; intros [|c s] Hlen; simpl in *;
    try reflexivity; try lia.
  rewrite andb_true_r, drop_0.
  destruct (Ascii.eqb o c); simpl; rewrite IH by lia; reflexivity.
Qed.

Lemma ReplaceAll_single (s : string) (o n : ascii) :
  o <> n ->
  list_ascii_of_string (ReplaceAll s (String o "") (String n ""))
  = map (fun c => if Ascii.eqb o c then n else c) (list_ascii_of_string s).
Proof.
  intros Hne. unfold ReplaceAll.
  destruct (String.eqb_spec (String o "") (String n "")) as [[= ?]|_];
    [contradiction|].
  rewrite list_ascii_of_string_of_list_ascii. simpl.
  apply replace_loop_single. now rewrite length_list_ascii_of_string.
Qed.

Lemma spaced_map (token : string) :
  list_ascii_of_string (spaced token)
  = map (fun c => if is_separator c then " "%char else c)
        (list_ascii_of_string token).
Proof.
  unfold spaced, newline.
  rewrite !ReplaceAll_single by discriminate.
  rewrite map_map. apply map_ext. intros c. unfold is_separator.
  destruct (Ascii.eqb_spec "010"%char c) as [<-|H1]; [reflexivity|].
  destruct (Ascii.eqb_spec ","%char c) as [<-|H2]; [reflexivity|].
  destruct (Ascii.eqb_spec c "010"%char) as [->|_]; [congruence|].
  destruct (Ascii.eqb_spec c ","%char) as [->|_]; [congruence|].
  simpl. destruct (Ascii.eqb_spec c " "%char) as [->|_]; reflexivity.
Qed.

Lemma split_loop_not_nil (turns : nat) (s sep piece : list ascii) :
  split_loop turns s sep piece <> [].
Proof.
  revert s piece. induction turns as [|turns IH]; intros [|c s] piece; simpl;
    try discriminate.
  destruct (has_prefix sep (c :: s)); [discriminate | apply IH].
Qed.

(** Splitting at one byte: a piece more than there are such bytes. *)
Lemma split_loop_single_length (turns : nat) (s piece : list ascii) (sep : ascii) :
  length s <= turns ->
  length (split_loop turns s [sep] piece)
  = S (length (List.filter (Ascii.eqb sep) s)).
Proof.
  revert s piece. induction turns as [|turns IH]; intros [|c s] piece Hlen;
    simpl in *; try reflexivity; try lia.
  rewrite andb_true_r, drop_0.
  destruct (Ascii.eqb sep c); simpl; rewrite IH by lia; reflexivity.
Qed.

(** No piece holds the byte split at. *)
Lemma split_loop_single_free (turns : nat) (s piece : list ascii) (sep : ascii) :
  length s <= turns ->
  sep ∉ piece ->
  Forall (fun p => sep ∉ p) (split_loop turns s [sep] piece).
Proof.
  revert s piece. induction turns as [|turns IH]; intros [|c s] piece Hlen Hp;
    simpl in *; try lia.
  - rewrite app_nil_r. now constructor.
  - now constructor.
  - rewrite andb_true_r, drop_0.
    destruct (Ascii.eqb_spec sep c) as [<-|Hne].
    + constructor; [exact Hp|]. apply IH; [lia|]. apply not_elem_of_nil.
    + apply IH; [lia|]. rewrite elem_of_app, list_elem_of_singleton.
      intros [?|?]; [contradiction | congruence].
Qed.

(** Every byte of a piece is a byte of the text. *)
Lemma split_loop_single_sub (turns : nat) (s piece : list ascii) (sep : ascii) :
  Forall (fun p => forall c, c ∈ p -> c ∈ piece ++ s)
         (split_loop turns s [sep] piece).
Proof.
  revert s piece. induction turns as [|turns IH]; intros [|c s] piece; simpl.
  - now constructor.
  - now constructor.
  - constructor; [|constructor]. intros c Hc. now rewrite app_nil_r.
  - rewrite andb_true_r, drop_0. destruct (Ascii.eqb sep c).
    + constructor.
      * intros c0 Hc0. rewrite elem_of_app. now left.
      * eapply Forall_impl; [apply IH|]. cbn beta. intros p Hp c0 Hc0.
        specialize (Hp c0 Hc0). rewrite app_nil_l in Hp.
        rewrite elem_of_app, elem_of_cons. auto.
    + eapply Forall_impl; [apply IH|]. cbn beta. intros p Hp c0 Hc0.
      specialize (Hp c0 Hc0). now rewrite <- app_assoc in Hp.
Qed.

Lemma concat_cons (sep x : string) (xs : list string) :
  xs <> [] ->
  String.concat sep (x :: xs) = (x ++ sep ++ String.concat sep xs)%string.
Proof. destruct xs; [congruence | reflexivity]. Qed.

(** The pieces with the byte between them spell the text that was split. *)
Lemma split_loop_single_concat (turns : nat) (s piece : list ascii) (sep : ascii) :
  length s <= turns ->
  String.concat (String sep "")
    (map string_of_list_ascii (split_loop turns s [sep] piece))
  = string_of_list_ascii (piece ++ s).
Proof.
  revert s piece. induction turns as [|turns IH]; intros [|c s] piece Hlen;
    simpl in Hlen; cbn [split_loop has_prefix length drop map]; try lia;
    [now rewrite app_nil_r .. |].
  rewrite andb_true_r, ?drop_0.
  destruct (Ascii.eqb_spec sep c) as [<-|Hne]; cbn [map].
  - rewrite concat_cons.
    + rewrite IH by lia.
      rewrite app_nil_l, (string_of_list_app piece (sep :: s)).
      reflexivity.
    + intros Hnil. apply map_eq_nil in Hnil.
      now apply split_loop_not_nil in Hnil.
  - rewrite IH by lia. now rewrite <- app_assoc.
Qed.

Lemma filter_map_separator (l : list ascii) :
  List.filter (Ascii.eqb " ")
    (map (fun c => if is_separator c then " "%char else c) l)
  = map (fun _ => " "%char) (List.filter is_separator l).
Proof.
  induction l as [|c l IH]; [reflexivity|]. cbn [map List.filter].
  destruct (is_separator c) eqn:Hsep; cbn [map].
  - rewrite Ascii.eqb_refl, IH. reflexivity.
  - destruct (Ascii.eqb_spec " "%char c) as [<-|_]; [discriminate Hsep | exact IH].
Qed.

(** X12: the addresses [ParseTCPAddrArray] reads from a token. The token
    is cut at every line feed, comma and space: there is one piece more
    than there are such bytes, so an empty token, a separator at either
    end, or two separators in a row give empty pieces, which are resolved
    like the others. No piece holds a separator, and the pieces with a
    space between them spell the token with its separators turned into
    spaces: nothing else of the token is dropped or changed. *)
Theorem ParseTCPAddrArray_pieces (token : string) :
  let pieces := Split (spaced token) " " in
  length pieces
  = S (length (List.filter is_separator (list_ascii_of_string token)))
  /\ Forall (fun piece =>
               forall c, c ∈ list_ascii_of_string piece -> is_separator c = false)
            pieces
  /\ String.concat " " pieces = spaced token
  /\ list_ascii_of_string (spaced token)
     = map (fun c => if is_separator c then " "%char else c)
           (list_ascii_of_string token).
Proof.
  cbv zeta. unfold Split.
  change (list_ascii_of_string " ") with [" "%char].
  pose proof (length_list_ascii_of_string (spaced token)) as Hlen.
  repeat split.
  - rewrite length_map, split_loop_single_length by lia.
    rewrite spaced_map, filter_map_separator, length_map. reflexivity.
  - apply Forall_map.
    pose proof (split_loop_single_free (String.length (spaced token))
                  (list_ascii_of_string (spaced token)) [] " "%char
                  ltac:(lia) ltac:(apply not_elem_of_nil)) as Hfree.
    pose proof (split_loop_single_sub (String.length (spaced token))
                  (list_ascii_of_string (spaced token)) [] " "%char) as Hsub.
    rewrite Forall_forall in Hfree, Hsub. apply Forall_forall.
    intros p Hp c Hc. rewrite list_ascii_of_string_of_list_ascii in Hc.
    specialize (Hfree p Hp). specialize (Hsub p Hp c Hc).
    rewrite app_nil_l, spaced_map in Hsub.
    apply list_elem_of_fmap in Hsub as (c0 & Hc0 & _).
    destruct (is_separator c0) eqn:Hsep0; subst c; [contradiction|exact Hsep0].
  - change " "%string with (String " "%char "").
    rewrite split_loop_single_concat by lia.
    apply string_of_list_ascii_of_string.
  - apply spaced_map.
Qed.

End SplitProperties.

Section DecoderProperties.
Import agent strings parse.
Context `{Package} {W : Type} (h : handler call W).

(** The loop over the pieces: it resolves them in their order and stops at
    the first that fails. *)
Lemma resolve_each_run (token : string) (pieces : list string)
    (results : list (option TCPAddr)) (w : W) :
  exists (answers : list (string * (option TCPAddr * option error))) (w' : W)
         (r : list (option TCPAddr) + wrapped),
    run h (resolve_each token pieces results) w = (Returned r, w', resolved answers)
    /\ match r with
       | inl out =>
           map fst answers = pieces
           /\ Forall succeeded answers
           /\ out = results ++ map (fun a => a.2.1) answers
       | inr (Wrapf err message) =>
           exists done saddr addr rest,
             answers = done ++ [(saddr, (addr, Some err))]
             /\ Forall succeeded done
             /\ pieces = map fst done ++ saddr :: rest
             /\ message
                = ("unable to resolve tcp address " ++ saddr ++ " : " ++ token)%string
       end.
Proof.
  revert results w. induction pieces as [|saddr rest IH]; intros results w.
  - exists [], w, (inl results). simpl. rewrite app_nil_r. repeat split.
    constructor.
  - cbn [resolve_each bind invoke run].
    destruct (h _ (ResolveTCPAddr "tcp" saddr) w) as [[addr [err|]] w1] eqn:Hh;
      cbn [bind run snd fst].
    + exists [(saddr, (addr, Some err))], w1,
        (inr (Wrapf err ("unable to resolve tcp address " ++ saddr ++ " : " ++ token))).
      split; [reflexivity|].
      exists [], saddr, addr, rest. repeat split. constructor.
    + destruct (IH (results ++ [addr]) w1) as (answers & w' & r & Hrun & Hr).
      exists ((saddr, (addr, None)) :: answers), w', r.
      rewrite Hrun. split; [reflexivity|].
      destruct r as [out|[err message]].
      * destruct Hr as (Hpieces & Hok & ->). cbn [map fst snd].
        rewrite Hpieces, <- app_assoc. repeat split.
        now constructor.
      * destruct Hr as (done & failed & addr' & rest' & -> & Hok & -> & ->).
        exists ((saddr, (addr, None)) :: done), failed, addr', rest'.
        repeat split. now constructor.
Qed.

(** X13: [ParseTCPAddrArray] reads one token and resolves its pieces from
    left to right, each as a [tcp] address. It stops at the first piece
    that does not resolve: the pieces behind it are not resolved, the
    target is not set, and the error returned wraps the error of that
    piece under a message that names the piece and the whole token, its
    separators turned into spaces. When every piece resolves, the target
    is set once, after the last piece, to the addresses in the order of
    the pieces, and the error is nil. The decoder returns in every
    environment. *)
Theorem ParseTCPAddrArray_resolves_in_order (w : W) :
  let n := (h _ Scan_Len w).1 in
  let w0 := (h _ Scan_Len w).2 in
  let popped := (h _ Scan_Pop w0).1 in
  let pieces := Split (spaced popped) " " in
  n <> 0%Z ->
  exists (answers : list (string * (option TCPAddr * option error))) (w' : W)
         (r : option wrapped),
    run h ParseTCPAddrArray w
    = (Returned r, w',
       Event Scan_Len n :: Event Scan_Pop popped :: resolved answers
       ++ match r with
          | None => [Event (target_Set (ValueTCPAddrs (map (fun a => a.2.1) answers))) tt]
          | Some _ => []
          end)
    /\ match r with
       | None => map fst answers = pieces /\ Forall succeeded answers
       | Some (Wrapf err message) =>
           exists done saddr addr rest,
             answers = done ++ [(saddr, (addr, Some err))]
             /\ Forall succeeded done
             /\ pieces = map fst done ++ saddr :: rest
             /\ message
                = ("unable to resolve tcp address " ++ saddr ++ " : "
                   ++ spaced popped)%string
       end.
Proof.
  cbv zeta. intros Hn. unfold ParseTCPAddrArray.
  cbn [bind invoke run].
  destruct (h _ Scan_Len w) as [n w0]. cbn [fst snd] in *.
  destruct (Z.eqb_spec n 0) as [->|_]; [contradiction|].
  cbn [bind run].
  destruct (h _ Scan_Pop w0) as [popped w1]. cbn [fst snd].
  rewrite run_bind.
  destruct (resolve_each_run (spaced popped) (Split (spaced popped) " ") [] w1)
    as (answers & w2 & r & Hrun & Hr).
  rewrite Hrun. destruct r as [out|[err message]].
  - destruct Hr as (Hpieces & Hok & ->). cbn [app bind invoke run].
    destruct (h _ (target_Set _) w2) as [[] w3].
    exists answers, w3, None. split; [reflexivity|]. split; assumption.
  - cbn [run]. exists answers, w2, (Some (Wrapf err message)).
    split; [reflexivity | exact Hr].
Qed.

(** X14: an empty command line. When the scanner holds nothing,
    [ParseTCPAddr] and [ParseTCPAddrArray] return nil at once: no token is
    read, nothing is resolved and the target is left as it is. [ParseIP]
    does not look at the length: it reads a token in every case, sets the
    target to what [net.ParseIP] gives for it, nil for a text that is no
    address, and never returns an error. *)
Theorem decoders_on_empty_line (w : W) :
  let n := (h _ Scan_Len w).1 in
  let w0 := (h _ Scan_Len w).2 in
  let popped := (h _ Scan_Pop w).1 in
  let w1 := (h _ Scan_Pop w).2 in
  (n = 0%Z ->
   run h ParseTCPAddr w = (Returned None, w0, [Event Scan_Len 0%Z])
   /\ run h ParseTCPAddrArray w = (Returned None, w0, [Event Scan_Len 0%Z]))
  /\ run h ParseIP w
     = (Returned None, (h _ (target_Set (ValueIP (net_ParseIP popped))) w1).2,
        [Event Scan_Pop popped;
         Event (target_Set (ValueIP (net_ParseIP popped))) tt]).
Proof.
  cbv zeta. split.
  - unfold ParseTCPAddr, ParseTCPAddrArray. cbn [bind invoke run].
    destruct (h _ Scan_Len w) as [n w0]. cbn [fst snd].
    intros ->. split; reflexivity.
  - unfold ParseIP. cbn [bind invoke run].
    destruct (h _ Scan_Pop w) as [popped w1]. cbn [fst snd bind run].
    destruct (h _ (target_Set _) w1) as [[] w2]. reflexivity.
Qed.

Lemma split_loop_without (turns : nat) (s piece : list ascii) (sep : ascii) :
  sep ∉ s -> split_loop turns s [sep] piece = [piece ++ s].
Proof.
  revert s piece. induction turns as [|turns IH]; intros [|c s] piece Hs;
    cbn [split_loop has_prefix]; try reflexivity; [now rewrite app_nil_r|].
  rewrite andb_true_r. apply not_elem_of_cons in Hs as [Hne Hs].
  destruct (Ascii.eqb_spec sep c) as [->|_]; [congruence|].
  rewrite IH by exact Hs. now rewrite <- app_assoc.
Qed.

(** A token without a separator is one piece, the token itself. *)
Lemma Split_spaced_single (token : string) :
  (forall c, c ∈ list_ascii_of_string token -> is_separator c = false) ->
  spaced token = token /\ Split (spaced token) " " = [token].
Proof.
  intros Hfree.
  assert (Hspaced : spaced token = token).
  { rewrite <- (string_of_list_ascii_of_string (spaced token)), spaced_map.
    rewrite <- (string_of_list_ascii_of_string token) at 2. f_equal.
    rewrite <- (map_id (list_ascii_of_string token)) at 2.
    apply map_ext_in. intros c Hc. apply list_elem_of_In in Hc.
    now rewrite (Hfree c Hc). }
  split; [exact Hspaced|]. rewrite Hspaced. unfold Split.
  change (list_ascii_of_string " ") with [" "%char].
  rewrite split_loop_without.
  - cbn [map app]. now rewrite string_of_list_ascii_of_string.
  - intros Hin. apply Hfree in Hin. discriminate Hin.
Qed.

(** X15: for a token that holds no line feed, comma or space,
    [ParseTCPAddrArray] does what [ParseTCPAddr] does: both read the token
    and resolve it, once, as it is. When it resolves, the one stores the
    address and the other the list of that one address; when it does not,
    both return the error of the resolver wrapped, and neither sets the
    target. *)
Theorem ParseTCPAddrArray_single_address (w : W) :
  let n := (h _ Scan_Len w).1 in
  let w0 := (h _ Scan_Len w).2 in
  let token := (h _ Scan_Pop w0).1 in
  let w1 := (h _ Scan_Pop w0).2 in
  let answer := (h _ (ResolveTCPAddr "tcp" token) w1).1 in
  let w2 := (h _ (ResolveTCPAddr "tcp" token) w1).2 in
  n <> 0%Z ->
  (forall c, c ∈ list_ascii_of_string token -> is_separator c = false) ->
  let reading :=
    [Event Scan_Len n; Event Scan_Pop token;
     Event (ResolveTCPAddr "tcp" token) answer] in
  match answer.2 with
  | None =>
      run h ParseTCPAddr w
      = (Returned None, (h _ (target_Set (ValueTCPAddr answer.1)) w2).2,
         reading ++ [Event (target_Set (ValueTCPAddr answer.1)) tt])
      /\ run h ParseTCPAddrArray w
         = (Returned None, (h _ (target_Set (ValueTCPAddrs [answer.1])) w2).2,
            reading ++ [Event (target_Set (ValueTCPAddrs [answer.1])) tt])
  | Some err =>
      run h ParseTCPAddr w
      = (Returned
           (Some (Wrapf err ("unable to resolve tcp address " ++ token ++ " - "
                             ++ (h _ Sdump_ctx w2).1))),
         (h _ Sdump_ctx w2).2,
         reading ++ [Event Sdump_ctx (h _ Sdump_ctx w2).1])
      /\ run h ParseTCPAddrArray w
         = (Returned
              (Some (Wrapf err ("unable to resolve tcp address " ++ token ++ " : "
                                ++ token))),
            w2, reading)
  end.
Proof.
  cbv zeta. intros Hn Hfree.
  unfold ParseTCPAddr, ParseTCPAddrArray. cbn [bind invoke run].
  destruct (h _ Scan_Len w) as [n w0]. cbn [fst snd] in *.
  destruct (Z.eqb_spec n 0) as [->|_]; [contradiction|].
  cbn [bind run].
  destruct (h _ Scan_Pop w0) as [token w1]. cbn [fst snd] in *.
  destruct (Split_spaced_single token Hfree) as [-> ->].
  cbn [bind run resolve_each invoke].
  destruct (h _ (ResolveTCPAddr "tcp" token) w1) as [[addr [err|]] w2];
    cbn [fst snd bind run].
  - destruct (h _ Sdump_ctx w2) as [dump w3]. cbn [fst snd bind run].
    split; reflexivity.
  - cbn [app].
    destruct (h _ (target_Set (ValueTCPAddr addr)) w2) as [[] w3].
    destruct (h _ (target_Set (ValueTCPAddrs [addr])) w2) as [[] w4].
    split; reflexivity.
Qed.

End DecoderProperties.

Section DecoderScenarios.
Import agent strings parse.
#[local] Existing Instance scenario.parse_package.

(** Two addresses on two lines after a comma: four pieces are resolved. *)
Lemma ParseTCPAddrArray_two_lines :
  let w := scenario.mkLine [("10.0.0.1:2000," ++ newline ++ "10.0.0.2:2000 ")%string] [] in
  exists answers w' r,
    run scenario.scan ParseTCPAddrArray w
    = (Returned r, w',
       Event Scan_Len 1%Z
       :: Event Scan_Pop (hd ""%string (scenario.tokens w)) :: resolved answers
       ++ match r with
          | None => [Event (target_Set (ValueTCPAddrs (map (fun a => a.2.1) answers))) tt]
          | Some _ => []
          end)
    /\ r = None
    /\ map fst answers = ["10.0.0.1:2000"; ""; "10.0.0.2:2000"; ""]%string.
Proof.
  cbv zeta.
  destruct (ParseTCPAddrArray_resolves_in_order scenario.scan
              (scenario.mkLine [("10.0.0.1:2000," ++ newline ++ "10.0.0.2:2000 ")%string] []) ltac:(discriminate))
    as (answers & w' & r & Hrun & Hr).
  exists answers, w', r. split; [exact Hrun|].
  assert (Hnone : r = None).
  { assert (Hout : (run scenario.scan ParseTCPAddrArray
                      (scenario.mkLine [("10.0.0.1:2000," ++ newline ++ "10.0.0.2:2000 ")%string] [])).1.1 = Returned None) by (vm_compute; reflexivity).
    rewrite Hrun in Hout. now injection Hout. }
  split; [exact Hnone|]. subst r. destruct Hr as [Hpieces _].
  rewrite Hpieces. vm_compute. reflexivity.
Defined.

(** The second of three addresses does not resolve: the third is not
    tried and the target stays empty. *)
Example ParseTCPAddrArray_stops :
  let w := scenario.mkLine ["a:1 nowhere b:2"%string] [] in
  outcome_of scenario.scan ParseTCPAddrArray w
  = Returned (Some (Wrapf (errorString "lookup nowhere: no such host")
                      "unable to resolve tcp address nowhere : a:1 nowhere b:2"))
  /\ scenario.target (world_after scenario.scan ParseTCPAddrArray w) = []
  /\ length (trace scenario.scan ParseTCPAddrArray w) = 4.
Proof. repeat split; vm_compute; reflexivity. Qed.

(** Nothing on the line, and a text that is no address. *)
Lemma decoders_on_empty_line_nothing :
  let w := scenario.mkLine [] [] in
  (run scenario.scan ParseTCPAddr w = (Returned None, w, [Event Scan_Len 0%Z])
   /\ run scenario.scan ParseTCPAddrArray w = (Returned None, w, [Event Scan_Len 0%Z]))
  /\ scenario.target (world_after scenario.scan ParseIP w) = [ValueIP None].
Proof.
  destruct (decoders_on_empty_line scenario.scan (scenario.mkLine [] []))
    as [Hempty Hip].
  split; [exact (Hempty eq_refl)|].
  unfold world_after. rewrite Hip. reflexivity.
Defined.

(** One address on the line. *)
Lemma ParseTCPAddrArray_single_address_node :
  let w := scenario.mkLine ["10.0.0.1:2000"%string] [] in
  let addr := Some (mkTCPAddr [] 0 "10.0.0.1:2000") in
  let reading :=
    [Event Scan_Len 1%Z; Event Scan_Pop "10.0.0.1:2000"%string;
     Event (ResolveTCPAddr "tcp" "10.0.0.1:2000") (addr, None)] in
  run scenario.scan ParseTCPAddr w
  = (Returned None, scenario.mkLine [] [ValueTCPAddr addr],
     reading ++ [Event (target_Set (ValueTCPAddr addr)) tt])
  /\ run scenario.scan ParseTCPAddrArray w
     = (Returned None, scenario.mkLine [] [ValueTCPAddrs [addr]],
        reading ++ [Event (target_Set (ValueTCPAddrs [addr])) tt]).
Proof.
  refine (ParseTCPAddrArray_single_address scenario.scan
            (scenario.mkLine ["10.0.0.1:2000"%string] []) _ _).
  - discriminate.
  - intros c Hc. cbn in Hc.
    repeat (apply elem_of_cons in Hc as [->|Hc]; [reflexivity|]).
    now apply elem_of_nil in Hc.
Defined.

End DecoderScenarios.

(* ===================================================================== *)
(** * Rotation of the cluster tokens, and the peer-to-peer source *)
(* ===================================================================== *)

Section RotationProperties.
Import agent.

(** X16: a token put in front of the cluster tokens becomes the primary
    key. When there were tokens before, the keys in use stay in the keyring:
    the old primary key is the first legacy key, followed by the old
    legacy keys. When there was no token, the key derived from the server
    name is not kept: the keyring holds the new key only. *)
Theorem Keyring_prepend_rotates `{Gossip} (t : Config) (token : string) :
  let t' := set_ClusterTokens t (Some (token :: elems (ClusterTokens t))) in
  let legacy :=
    match elems (ClusterTokens t) with
    | [] => []
    | _ :: _ => (Keyring_passes t).2 :: (Keyring_passes t).1
    end in
  Keyring t' = NewKeyring legacy (sha256.Sum256 (bytes_of_string token))
  /\ Keyring_passes t' = (legacy, sha256.Sum256 (bytes_of_string token))
  /\ ServerName t' = ServerName t.
Proof.
  cbv zeta. unfold Keyring_passes. rewrite !Keyring_cases.
  destruct t as [name root keep minimum boot freq bind adv alt tokens server
                 ca mode dir creds dns dnsboot aws].
  cbn [ClusterTokens set_ClusterTokens elems default ServerName].
  destruct (default [] tokens) as [|first rest]; repeat split.
Qed.

End RotationProperties.

Section RotationScenarios.
Import agent.

(** A third token in front of the two of the reference configuration, and
    a first token for a configuration without any. *)
Lemma Keyring_prepend_examples :
  Keyring_passes (set_ClusterTokens sim.config (Some ["newer"; "new"; "old"]))
  = ([ (Keyring_passes sim.config).2; sha256.Sum256 (bytes_of_string "old") ],
     sha256.Sum256 (bytes_of_string "newer"))
  /\ Keyring_passes (set_ClusterTokens sim.config_no_tokens (Some ["first"]))
     = ([], sha256.Sum256 (bytes_of_string "first"))
  /\ (Keyring_passes sim.config_no_tokens).2
     = sha256.Sum256 (bytes_of_string "prod-cluster").
Proof.
  split; [|split].
  - exact (proj1 (proj2 (@Keyring_prepend_rotates recording sim.config "newer"))).
  - exact (proj1 (proj2 (@Keyring_prepend_rotates recording sim.config_no_tokens "first"))).
  - reflexivity.
Defined.

End RotationScenarios.

Section PeerToPeerProperties.
Import agent cmdopts.
Context `{Handles} `{Lib} {W : Type} (h : handler call W).

(** X17: the peer-to-peer source. [p2ppeering] asks for the signer, then
    for the TLS configuration, then for the dialer, and stops at the first
    that fails: it then returns that error and the nil source, and what
    comes later is not asked for. When it returns no error, it made
    exactly four calls, each of the three constructions succeeded, the
    dialer was built with the signer and the TLS configuration just
    obtained, and the source is the discovery URI of the very address the
    dialer dials: the server name joined with the port read from the
    environment, by default the port of the bind address. *)
Theorem p2ppeering_source_is_dialed (config : Config) (w w' : W)
    (r : Source * option error) (tr : list (event call)) :
  run h (p2ppeering config) w = (Returned r, w', tr) ->
  exists (a : TCPAddr) (port : string) (ss : Signer) (e1 : option error),
    let address := JoinHostPort (ServerName config) port in
    let asked :=
      [ Event (envx_String (Itoa (Port a)) EnvAgentClusterP2PDiscoveryPort) port;
        Event (NewAgentSigner (Root config)) (ss, e1) ] in
    P2PBind config = Some a
    /\ match e1 with
       | Some err => r = (NilSource, Some err) /\ tr = asked
       | None =>
           exists (tls : TLSConfig) (e2 : option error),
             match e2 with
             | Some err =>
                 r = (NilSource, Some err)
                 /\ tr = asked ++ [Event (TLSGenServer config) (tls, e2)]
             | None =>
                 exists (d : Dialer) (e3 : option error),
                   tr = asked
                        ++ [ Event (TLSGenServer config) (tls, e2);
                             Event (DefaultDialer address tls ss) (d, e3) ]
                   /\ r = match e3 with
                          | Some err => (NilSource, Some err)
                          | None => (P2P (URIDiscovery address) d, None)
                          end
             end
       end.
Proof.
  unfold p2ppeering. destruct (P2PBind config) as [a|]; [|discriminate].
  cbn [deref bind invoke run].
  destruct (h _ (envx_String _ _) w) as [port w1].
  cbn [bind run].
  destruct (h _ (NewAgentSigner _) w1) as [[ss [err|]] w2]; cbn [bind run fst snd].
  { intros [= <- <- <-]. exists a, port, ss, (Some err). repeat split. }
  destruct (h _ (TLSGenServer _) w2) as [[tls [err|]] w3]; cbn [bind run fst snd].
  { intros [= <- <- <-]. exists a, port, ss, None. split; [reflexivity|].
    exists tls, (Some err). repeat split. }
  destruct (h _ (DefaultDialer _ _ _) w3) as [[d e3] w4]; cbn [bind run fst snd].
  destruct e3 as [err|]; cbn [run]; intros [= <- <- <-];
    exists a, port, ss, None; (split; [reflexivity|]);
    exists tls, None; eexists d, _; split; reflexivity.
Qed.

End PeerToPeerProperties.

Section PeerToPeerScenarios.
Import agent cmdopts.
#[local] Existing Instance sim.handles.
#[local] Existing Instance sim.lib.

(** The reference configuration in a world where every call succeeds. *)
Lemma p2ppeering_source_is_dialed_healthy :
  let address := "prod-cluster:2001"%string in
  let r := (@P2P sim.handles address "dialer to prod-cluster:2001", @None error) in
  let tr := trace sim.env (p2ppeering sim.config) sim.healthy in
  length tr = 4
  /\ exists (a : TCPAddr) (port : string) (ss : Signer) (e1 : option error),
       P2PBind sim.config = Some a
       /\ match e1 with
          | Some err => r = (NilSource, Some err)
          | None => port = "2001"%string /\ ss = "signer of /var/cache/bw"%string
          end.
Proof.
  cbv zeta. split; [vm_compute; reflexivity|].
  assert (Hrun0 :
            run sim.env (p2ppeering sim.config) sim.healthy
            = (Returned (P2P "prod-cluster:2001" "dialer to prod-cluster:2001", None),
               sim.healthy, trace sim.env (p2ppeering sim.config) sim.healthy))
    by (vm_compute; reflexivity).
  destruct (p2ppeering_source_is_dialed sim.env sim.config sim.healthy
              sim.healthy _ _ Hrun0)
    as (a & port & ss & e1 & Hbind & Hrun).
  exists a, port, ss, e1. split; [exact Hbind|].
  destruct e1 as [err|]; [exact (proj1 Hrun)|].
  destruct Hrun as (tls & [err|] & Hrun).
  - destruct Hrun as [Hr _]. discriminate Hr.
  - destruct Hrun as (d & e3 & Htr & _).
    vm_compute in Htr. injection Htr as Hport _ Hss _. split; congruence.
Defined.

End PeerToPeerScenarios.

(* ===================================================================== *)
(** * Where the state of an agent is kept *)
(* ===================================================================== *)

Section FirstCall.
Context {C : Type -> Type} {W A X : Type} (h : handler C W).

(** A program that starts with a call: the call is the first of its trace. *)
Lemma trace_invoke_first (c : C X) (k : X -> prog C A) (w : W) :
  head (trace h (bind (invoke c) k) w) = Some (Event c (h _ c w).1).
Proof.
  unfold trace. cbn [bind invoke run].
  destruct (h X c w) as [x w1]. cbn [bind].
  destruct (run h (k x) w1) as [[r w2] tr]. reflexivity.
Qed.

End FirstCall.

Section EntryProperties.
Import filepath.

Lemma append_not_self (p s : string) : s <> ""%string -> (p ++ s)%string <> p.
Proof.
  intros Hs. induction p as [|c p IH]; [exact Hs|].
  change (String c p ++ s)%string with (String c (p ++ s)%string).
  intros [= Heq]. now apply IH.
Qed.

(** An entry of a directory is not the directory. *)
Lemma entry_of_not_parent (path parent name : string) :
  name <> "."%string -> name <> ""%string ->
  entry_of path parent name -> path <> parent.
Proof.
  intros Hdot Hnil [[Hparent Hpath]|[[Hparent Hpath]|Hpath]]; subst path.
  - now subst parent.
  - subst parent. destruct name; [congruence | discriminate].
  - apply append_not_self. discriminate.
Qed.

End EntryProperties.

Section DirectoryProperties.
Import agent cmdopts.
Context `{Handles} (uri : string -> string) (key : string).

(** X18: the storage directory of the consensus protocol, with the path
    functions of the Go library. [Raft] makes the directory before any
    other call, and the passive reset removes it before any other call;
    for every root the directory is the entry [raft.d] of the root: of
    the directory of the process when the root is empty or cleans to a
    dot, of the cleaned root otherwise. So the directory is never the
    cleaned root itself, whatever dots and doubled separators the root
    holds, and a reset does not remove the root; and the directory is an
    absolute path exactly when the root is. *)
Theorem Raft_directory_is_entry_of_root {W V : Type}
    (h : handler call W) (hfs : handler fsCall V)
    (t : Peering) (ctx : Context_) (conf : Config) (node : Node)
    (eq : ClientConn) (options : list ProtocolOption) (w : W) (v : V) :
  let dir := filepath.Join [Root conf; "raft.d"] in
  head (trace h (@Raft _ (go_lib uri key) t ctx conf node eq options) w)
  = Some (Event (FS (MkdirAll dir perm_0700))
                (h _ (FS (MkdirAll dir perm_0700)) w).1)
  /\ head (trace hfs (@passive_reset _ (go_lib uri key) dir) v)
     = Some (Event (RemoveAll dir) (hfs _ (RemoveAll dir) v).1)
  /\ (if String.eqb (Root conf) ""
      then dir = "raft.d"%string
      else filepath.entry_of dir (filepath.Clean (Root conf)) "raft.d")
  /\ dir <> filepath.Clean (Root conf)
  /\ dir <> ""%string
  /\ filepath.IsAbs dir = filepath.IsAbs (Root conf).
Proof.
  cbv zeta. split; [|split; [|split; [|split; [|split]]]].
  - unfold Raft. apply trace_invoke_first.
  - unfold passive_reset. apply trace_invoke_first.
  - destruct (String.eqb_spec (Root conf) "") as [->|Hroot]; [reflexivity|].
    now apply Join_plain_name.
  - destruct (String.eqb_spec (Root conf) "") as [->|Hroot]; [discriminate|].
    apply (entry_of_not_parent _ _ "raft.d"); [discriminate .. |].
    now apply Join_plain_name.
  - now apply Join_second_not_empty.
  - destruct (String.eqb_spec (Root conf) "") as [->|Hroot]; [reflexivity|].
    now apply Join_first.
Qed.

End DirectoryProperties.

Section CredentialsProperties.
Import agent config.
Context `{Package}.

(** X19: where the default credentials are. When the default names of the
    credentials directory and of the CA certificate are plain names and
    the root is not empty, a credentials directory that [EnsureDefaults]
    fills in is the entry of that name of the cleaned root, for the
    deprecated field and for the new one; and a CA path it fills in is the
    entry of the certificate name of the deprecated credentials directory,
    as set or as just filled in, not of [Credentials.Directory]. *)
Theorem EnsureDefaults_defaults_are_entries (t : Config) :
  filepath.plain_name DefaultDirAgentCredentials = true ->
  filepath.plain_name DefaultTLSCertCA = true ->
  Root t <> ""%string ->
  let t' := EnsureDefaults t in
  (CredentialsDir t = ""%string ->
   filepath.entry_of (CredentialsDir t') (filepath.Clean (Root t))
     DefaultDirAgentCredentials)
  /\ (Directory (Credentials t) = ""%string ->
      filepath.entry_of (Directory (Credentials t')) (filepath.Clean (Root t))
        DefaultDirAgentCredentials)
  /\ (CA t = ""%string ->
      filepath.entry_of (CA t') (filepath.Clean (CredentialsDir t'))
        DefaultTLSCertCA
      /\ CredentialsDir t'
         = (if String.eqb (CredentialsDir t) ""
            then filepath.Join [Root t; DefaultDirAgentCredentials]
            else CredentialsDir t)).
Proof.
  intros Hdir Hca Hroot. cbv zeta.
  rewrite EnsureDefaults_CA, EnsureDefaults_Directory, EnsureDefaults_CredentialsDir.
  split; [|split].
  - intros ->. cbn [String.eqb]. now apply Join_plain_name.
  - intros ->. cbn [String.eqb]. now apply Join_plain_name.
  - intros ->. cbn [String.eqb]. split; [|reflexivity].
    apply Join_plain_name; [|exact Hca].
    destruct (String.eqb_spec (CredentialsDir t) ""); [|assumption].
    now apply Join_first.
Qed.

End CredentialsProperties.

Section DirectoryScenarios.
Import agent cmdopts config.
#[local] Existing Instance scenario.agent_package.

(** Roots with a doubled separator, a dot and a parent directory. *)
Example Raft_directory_examples :
  map (fun root => filepath.Join [root; "raft.d"])
      [ "/var/cache/bw"; "/var//cache/./bw/"; "/var/cache/bw/.."; "/"; "."; "";
        "cache/bw"; ".." ]%string
  = [ "/var/cache/bw/raft.d"; "/var/cache/bw/raft.d"; "/var/cache/raft.d";
      "/raft.d"; "raft.d"; "raft.d"; "cache/bw/raft.d"; "../raft.d" ]%string.
Proof. vm_compute. reflexivity. Qed.

(** The defaults of the default configuration. *)
Lemma EnsureDefaults_defaults_are_entries_default :
  let t := EnsureDefaults (NewConfig []) in
  filepath.entry_of (CredentialsDir t) "/var/cache/bearded-wookie" "tls"
  /\ filepath.entry_of (CA t) "/var/cache/bearded-wookie/tls" "tlsca.cert".
Proof.
  assert (Hroot : Root (NewConfig []) <> ""%string) by (cbn; discriminate).
  assert (Hdir' : filepath.plain_name DefaultDirAgentCredentials = true)
    by reflexivity.
  assert (Hca' : filepath.plain_name DefaultTLSCertCA = true) by reflexivity.
  destruct (EnsureDefaults_defaults_are_entries (NewConfig []) Hdir' Hca' Hroot)
    as (Hdir & _ & Hca).
  split.
  - exact (Hdir eq_refl).
  - exact (proj1 (Hca eq_refl)).
Defined.

End DirectoryScenarios.

(* ===================================================================== *)
(** * A configuration with the default bindings, and a sanitized one *)
(* ===================================================================== *)

Section DefaultBindProperties.
Import agent cmdopts.
Context `{config.Package} `{Handles} `{Lib} {W : Type} (h : handler call W).

(** X20: joining with the default bindings. A configuration cloned with
    [ConfigOptionDefaultBind(ip)] has a bind address, so [Join] does not
    panic on it, whatever the configuration was before and however the
    calls are answered: it calls [ClusterJoin] once, as its last call, and
    returns the answer. The discoveries that are switched on use the
    default port. *)
Theorem Join_after_DefaultBind (c : Config) (ip : bytes) (t : Peering)
    (ctx : Context_) (joiner : Joiner) (snap : PeeringFile) (w : W) :
  let conf := config.Clone c [config.ConfigOptionDefaultBind ip] in
  exists (answer : option error) (p2p : Source) (w' : W)
         (tr : list (event call)),
    run h (Join t ctx conf joiner snap) w
    = (Returned answer, w',
       tr ++ [Event
                (ClusterJoin ctx conf joiner
                   [ NewStaticTCP (elems (Bootstrap t));
                     p2p;
                     aws_source t conf config.DefaultP2PPort;
                     gcloud_source t conf config.DefaultP2PPort;
                     Snapshot snap;
                     dns_source t conf config.DefaultP2PPort ])
                answer])
    /\ joined_sources tr = [].
Proof.
  cbv zeta.
  set (conf := config.Clone c [config.ConfigOptionDefaultBind ip]).
  assert (Hbind : P2PBind conf
                  = Some {| IP := ip; Port := config.DefaultP2PPort; Zone := "" |})
    by reflexivity.
  destruct (p2ppeering_run h conf w _ Hbind)
    as (r & w1 & tr1 & Hrun & Hnone & _).
  destruct (Join_after_p2ppeering h t ctx conf joiner snap _ _ _ _ _ Hbind Hrun)
    as (answer & w' & Hjoin).
  cbn [Port] in Hjoin.
  eexists answer, _, w', _. rewrite Hjoin, !app_assoc. split; [reflexivity|].
  rewrite !joined_sources_app, Hnone, joined_sources_enabled_lines.
  now destruct (r.2).
Qed.

End DefaultBindProperties.

Section SanitizedProperties.
Import agent.

(** X21: the keyring of a sanitized configuration. [Sanitize] leaves no
    token, so [Keyring] on its result takes the branch without tokens: the
    only key is the digest of the server name, there is no legacy key, and
    no error of its own is reported. Two configurations with the same
    server name give the same keyring once sanitized, whatever their
    tokens were. *)
Theorem Keyring_after_Sanitize `{Gossip} (c c' : Config) :
  Keyring (Sanitize c)
  = NewKeyring [] (sha256.Sum256 (bytes_of_string (ServerName c)))
  /\ Keyring_passes (Sanitize c)
     = ([], sha256.Sum256 (bytes_of_string (ServerName c)))
  /\ (ServerName c' = ServerName c ->
      Keyring (Sanitize c') = Keyring (Sanitize c)).
Proof.
  unfold Keyring_passes. rewrite !Keyring_cases.
  destruct c, c'. cbn. repeat split. now intros ->.
Qed.

End SanitizedProperties.

Section DefaultBindScenarios.
Import agent cmdopts.
#[local] Existing Instance sim.handles.
#[local] Existing Instance sim.lib.
#[local] Existing Instance scenario.agent_package.

(** The configuration without a bind address, which makes [Join] panic,
    joins once it is given the default bindings. *)
Example Join_after_DefaultBind_unbound :
  outcome_of sim.env (Join sim.peering_all tt sim.config_unbound tt "peers.bin")
             sim.healthy
  = Panicked
  /\ outcome_of sim.env
       (Join sim.peering_all tt
          (config.Clone sim.config_unbound
             [config.ConfigOptionDefaultBind [x0a; x00; x00; x07]])
          tt "peers.bin")
       sim.healthy
     = Returned None.
Proof. split; vm_compute; reflexivity. Qed.

(** The reference configuration, sanitized. *)
Lemma Keyring_after_Sanitize_reference :
  Keyring_passes (Sanitize sim.config)
  = ([], sha256.Sum256 (bytes_of_string "prod-cluster"))
  /\ Keyring_passes (Sanitize sim.config) = Keyring_passes sim.config_no_tokens.
Proof.
  destruct (@Keyring_after_Sanitize recording sim.config sim.config_no_tokens)
    as (_ & Hpasses & _).
  split; [exact Hpasses|]. rewrite Hpasses. reflexivity.
Defined.

End DefaultBindScenarios.
